(** * Real-estate listing assistant: preference parsing, reranking and
      description fallback

    A shallow embedding of [app.py] (RealEstateApp.parse_preferences,
    RealEstateApp.rerank_listings with its inner score_listing) and of
    [llm_pipeline/utils.py] (safe_int, safe_float, parse_price,
    augment_listing_with_preferences), followed by the properties the
    design document states about them.

    Modelling conventions.
    - Python [str] is [string] (a byte string); [str.lower], [str.strip],
      [\d] and iteration over a [str] are the ASCII ones.  Where a property
      depends on it, the text is required to be ASCII ([is_ascii]).
    - A Python [float] is [pyfloat]: an exact rational, one of the two
      infinities, or NaN.  Rounding and overflow of binary64 arithmetic are
      not represented; the sign of zero is not represented.  Properties of
      the scores that depend on the arithmetic are stated over any float
      arithmetic ([score_listing_with]) or over any score ([rerank_by]);
      others carry the bound within which the exact value is the float.
    - Integers are unbounded; CPython refuses to convert between [int] and
      [str] beyond 4300 digits, and properties that depend on it carry
      that bound.
    - [random.randint] is a function of the number the generator delivers
      next, which is an input.
    - A score is a Python number; [int] and [float] scores are not told
      apart (Python compares and sorts 5 and 5.0 alike).
    - A dict with a known set of keys is a record of [option] fields:
      [None] stands for a missing key; a key bound to Python's None is
      not told apart from a missing one.
    - [print] calls and the Streamlit widgets are left out. *)

From Stdlib Require Import ZArith QArith Qabs Qpower List Ascii String Bool.
From Stdlib Require Import DecimalString DecimalPos DecimalZ.
From Stdlib Require Import Lia Lqa Permutation Sorted ListSet.
Import ListNotations.

Local Open Scope Z_scope.
Local Open Scope Q_scope.
Local Open Scope string_scope.
Local Open Scope list_scope.

(* ================================================================== *)
(** ** Python built-ins used by the program *)

Module Py.

(** Exceptions derived from [Exception].  [LibraryError] stands for any
    exception class of a third-party library (timeouts, quota errors,
    malformed responses of the chat model client). *)
Inductive exn : Type :=
| ValueError
| TypeError
| OverflowError
| ZeroDivisionError
| AttributeError
| LibraryError (name : string).

Inductive result (A : Type) : Type :=
| Ok (a : A)
| Raise (e : exn).
Arguments Ok {A} a.
Arguments Raise {A} e.

(** *** Floats *)

Inductive pyfloat : Type :=
| Fin (q : Q)
| Inf (negative : bool)
| NaN.

Definition Qltb (a b : Q) : bool := negb (Qle_bool b a).

(** [a < b]; every comparison with NaN is false. *)
Definition flt (a b : pyfloat) : bool :=
  match a, b with
  | NaN, _ | _, NaN => false
  | Fin x, Fin y => Qltb x y
  | Fin _, Inf n => negb n
  | Inf n, Fin _ => n
  | Inf n, Inf m => n && negb m
  end.

(** [a <= b]; every comparison with NaN is false. *)
Definition fle (a b : pyfloat) : bool :=
  match a, b with
  | NaN, _ | _, NaN => false
  | Fin x, Fin y => Qle_bool x y
  | Fin _, Inf n => negb n
  | Inf n, Fin _ => n
  | Inf n, Inf m => n || negb m
  end.

Definition fneg (a : pyfloat) : pyfloat :=
  match a with
  | Fin x => Fin (- x)
  | Inf n => Inf (negb n)
  | NaN => NaN
  end.

Definition fadd (a b : pyfloat) : pyfloat :=
  match a, b with
  | NaN, _ | _, NaN => NaN
  | Fin x, Fin y => Fin (x + y)
  | Fin _, Inf n | Inf n, Fin _ => Inf n
  | Inf n, Inf m => if Bool.eqb n m then Inf n else NaN
  end.

Definition fsub (a b : pyfloat) : pyfloat := fadd a (fneg b).

Definition fabs (a : pyfloat) : pyfloat :=
  match a with
  | Fin x => Fin (Qabs x)
  | Inf _ => Inf false
  | NaN => NaN
  end.

Definition Qis_zero (x : Q) : bool := Qeq_bool x 0.
Definition Qis_neg (x : Q) : bool := Qltb x 0.

Definition fmul (a b : pyfloat) : pyfloat :=
  match a, b with
  | NaN, _ | _, NaN => NaN
  | Fin x, Fin y => Fin (x * y)
  | Fin x, Inf n | Inf n, Fin x =>
      if Qis_zero x then NaN else Inf (xorb n (Qis_neg x))
  | Inf n, Inf m => Inf (xorb n m)
  end.

(** [a / b] on floats: division by zero raises. *)
Definition fdiv (a b : pyfloat) : result pyfloat :=
  match a, b with
  | _, Fin y =>
      if Qis_zero y then Raise ZeroDivisionError
      else match a with
           | Fin x => Ok (Fin (x / y))
           | Inf n => Ok (Inf (xorb n (Qis_neg y)))
           | NaN => Ok NaN
           end
  | NaN, _ | _, NaN => Ok NaN
  | Fin _, Inf _ => Ok (Fin 0)
  | Inf _, Inf _ => Ok NaN
  end.

(** The built-in [max(a, b)]: the first argument is kept unless the second
    is strictly greater. *)
Definition max (a b : pyfloat) : pyfloat := if flt a b then b else a.

Definition of_int (z : Z) : pyfloat := Fin (inject_Z z).

(** Truth value of a float: everything but zero. *)
Definition float_truthy (a : pyfloat) : bool :=
  match a with
  | Fin x => negb (Qis_zero x)
  | _ => true
  end.

(** Same float value (not the IEEE [==]: NaN is the same value as NaN). *)
Definition feq (a b : pyfloat) : Prop :=
  match a, b with
  | Fin x, Fin y => x == y
  | Inf n, Inf m => n = m
  | NaN, NaN => True
  | _, _ => False
  end.

(** *** Numbers and other values *)

Inductive pynum : Type :=
| PInt (z : Z)
| PFloat (f : pyfloat).

(** [float(n)] for a number. *)
Definition to_float (n : pynum) : pyfloat :=
  match n with
  | PInt z => of_int z
  | PFloat f => f
  end.

Definition num_truthy (n : pynum) : bool :=
  match n with
  | PInt z => negb (Z.eqb z 0)
  | PFloat f => float_truthy f
  end.

(** The values the numeric helpers are called with.  [VOther shown] is any
    object that is neither a number nor a string (a list, a dict): [int]
    rejects it with a TypeError and [str] renders it as [shown]. *)
Inductive pyval : Type :=
| VNone
| VBool (b : bool)
| VNum (n : pynum)
| VStr (s : string)
| VOther (shown : string).

(** *** Strings *)

Definition nl : string := String (ascii_of_nat 10) EmptyString.

Definition code (c : ascii) : nat := nat_of_ascii c.

Definition is_digit (c : ascii) : bool :=
  (48 <=? code c)%nat && (code c <=? 57)%nat.

Definition is_upper (c : ascii) : bool :=
  (65 <=? code c)%nat && (code c <=? 90)%nat.

(** Whitespace in the sense of [str.isspace], ASCII range. *)
Definition is_space (c : ascii) : bool :=
  ((9 <=? code c)%nat && (code c <=? 13)%nat)
  || ((28 <=? code c)%nat && (code c <=? 32)%nat).

Definition lower_char (c : ascii) : ascii :=
  if is_upper c then ascii_of_nat (code c + 32) else c.

(** [s.isascii()] *)
Definition is_ascii (s : string) : bool :=
  forallb (fun c => (code c <? 128)%nat) (list_ascii_of_string s).

(** [s.lower()] *)
Fixpoint lower (s : string) : string :=
  match s with
  | EmptyString => EmptyString
  | String c s' => String (lower_char c) (lower s')
  end.

Fixpoint lstrip_chars (cs : list ascii) : list ascii :=
  match cs with
  | c :: cs' => if is_space c then lstrip_chars cs' else cs
  | [] => []
  end.

Definition strip_chars (cs : list ascii) : list ascii :=
  rev (lstrip_chars (rev (lstrip_chars cs))).

(** [s.strip()] *)
Definition strip (s : string) : string :=
  string_of_list_ascii (strip_chars (list_ascii_of_string s)).

(** [sub in s] for two strings. *)
Fixpoint contains (s sub : string) : bool :=
  String.prefix sub s
  || match s with
     | EmptyString => false
     | String _ s' => contains s' sub
     end.

(** Iterating over a string yields its characters as one-letter strings. *)
Fixpoint chars (s : string) : list string :=
  match s with
  | EmptyString => []
  | String c s' => String c EmptyString :: chars s'
  end.

(** [sep.join(parts)] *)
Definition join (sep : string) (parts : list string) : string :=
  String.concat sep parts.

(** [str(z)] for an int. *)
Definition str_of_int (z : Z) : string := NilZero.string_of_int (Z.to_int z).

(** Groups of three digits from the right, separated by commas. *)
Fixpoint group3 (rev_digits : list ascii) : list ascii :=
  match rev_digits with
  | a :: b :: c :: ((_ :: _) as rest) =>
      a :: b :: c :: "," % char :: group3 rest
  | _ => rev_digits
  end.

(** [format(z, ",")]: decimal digits with thousands separators. *)
Definition format_thousands (z : Z) : string :=
  let digits := list_ascii_of_string (str_of_int (Z.abs z)) in
  let grouped := rev (group3 (rev digits)) in
  string_of_list_ascii (if (z <? 0)%Z then "-" % char :: grouped else grouped).

(** *** Conversions from text *)

Definition digit_value (c : ascii) : Z := Z.of_nat (code c - 48).

Definition digits_value (ds : list ascii) : Z :=
  fold_left (fun acc d => (10 * acc + digit_value d)%Z) ds 0%Z.

(** Reads [digit (["_"] digit)*] at the front of [cs]; gives the digits read
    (none if [cs] does not start with a digit) and what follows them. *)
Fixpoint digitpart (cs : list ascii) : list ascii * list ascii :=
  match cs with
  | c :: cs' =>
      if is_digit c then
        match cs' with
        | u :: after_u =>
            let digit_next :=
              match after_u with d :: _ => is_digit d | [] => false end in
            let (ds, rest) :=
              if (Ascii.eqb u "_" && digit_next)%bool then digitpart after_u
              else digitpart cs' in
            (c :: ds, rest)
        | [] => ([c], [])
        end
      else ([], cs)
  | [] => ([], [])
  end.

Definition split_sign (cs : list ascii) : bool * list ascii :=
  match cs with
  | "+" % char :: rest => (false, rest)
  | "-" % char :: rest => (true, rest)
  | _ => (false, cs)
  end.

(** [exponent ::= ("e" | "E") [sign] digitpart], to the end of the text.
    Gives the exponent, 0 when there is none. *)
Definition exponent (cs : list ascii) : option Z :=
  match cs with
  | [] => Some 0%Z
  | e :: cs' =>
      if (Ascii.eqb e "e" || Ascii.eqb e "E")%bool then
        let (neg, body) := split_sign cs' in
        match digitpart body with
        | ((_ :: _) as ds, []) =>
            Some (if neg then - digits_value ds else digits_value ds)%Z
        | _ => None
        end
      else None
  end.

(** [number ::= [digitpart] "." digitpart | digitpart ["."]], followed by an
    optional exponent. *)
Definition floatnumber (cs : list ascii) : option Q :=
  let (ip, after_ip) := digitpart cs in
  let (fp, after_fp) :=
    match after_ip with
    | "." % char :: r => digitpart r
    | _ => ([], after_ip)
    end in
  match ip, fp with
  | [], [] => None
  | _, _ =>
      match exponent after_fp with
      | Some e =>
          Some (inject_Z (digits_value (ip ++ fp))
                * Qpower (10 # 1) (e - Z.of_nat (List.length fp)))
      | None => None
      end
  end.

Definition lower_chars (cs : list ascii) : string :=
  lower (string_of_list_ascii cs).

(** [float(s)] for a string: [None] is the ValueError. *)
Definition float_of_string (s : string) : option pyfloat :=
  let (neg, body) := split_sign (strip_chars (list_ascii_of_string s)) in
  if (String.eqb (lower_chars body) "inf"
      || String.eqb (lower_chars body) "infinity")%bool then Some (Inf neg)
  else if String.eqb (lower_chars body) "nan" then Some NaN
  else match floatnumber body with
       | Some q => Some (Fin (if neg then - q else q))
       | None => None
       end.

(** [int(s)] for a string, base 10: [None] is the ValueError. *)
Definition int_of_string (s : string) : option Z :=
  let (neg, body) := split_sign (strip_chars (list_ascii_of_string s)) in
  match digitpart body with
  | ((_ :: _) as ds, []) =>
      Some (if neg then - digits_value ds else digits_value ds)%Z
  | _ => None
  end.

(** [int(f)] for a float: truncation towards zero. *)
Definition int_of_float (f : pyfloat) : result Z :=
  match f with
  | Fin q => Ok (Z.quot (Qnum q) (Zpos (Qden q)))
  | Inf _ => Raise OverflowError
  | NaN => Raise ValueError
  end.

(** [int(v)] *)
Definition int (v : pyval) : result Z :=
  match v with
  | VNone => Raise TypeError
  | VBool b => Ok (if b then 1 else 0)%Z
  | VNum (PInt z) => Ok z
  | VNum (PFloat f) => int_of_float f
  | VStr s =>
      match int_of_string s with
      | Some z => Ok z
      | None => Raise ValueError
      end
  | VOther _ => Raise TypeError
  end.

(** [re.sub] with the pattern for "neither a digit nor a dot" and an empty
    replacement: only digits and dots are kept. *)
Fixpoint keep_digits_and_dots (s : string) : string :=
  match s with
  | EmptyString => EmptyString
  | String c s' =>
      if (is_digit c || Ascii.eqb c ".")%bool
      then String c (keep_digits_and_dots s')
      else keep_digits_and_dots s'
  end.

(** *** Rendering values as text

    The text Python prints for a float (its shortest round-trip decimal) is
    a function of the binary64 value and is taken as a parameter. *)
Section Rendering.
Variable float_repr : pyfloat -> string.

Definition str_of_num (n : pynum) : string :=
  match n with
  | PInt z => str_of_int z
  | PFloat f => float_repr f
  end.

(** [str(v)], also what an f-string field [{v}] shows. *)
Definition str (v : pyval) : string :=
  match v with
  | VNone => "None"
  | VBool true => "True"
  | VBool false => "False"
  | VNum n => str_of_num n
  | VStr s => s
  | VOther shown => shown
  end.
End Rendering.

(** *** Sequences of strings

    A value that is either a list of strings or one raw string. *)
Inductive pyseq : Type :=
| Str (s : string)
| Lst (l : list string).

(** What a [for] loop, [set(...)] or [join] sees. *)
Definition items (v : pyseq) : list string :=
  match v with
  | Str s => chars s
  | Lst l => l
  end.

Definition seq_truthy (v : pyseq) : bool :=
  match v with
  | Str EmptyString | Lst [] => false
  | _ => true
  end.

Definition str_truthy (s : string) : bool :=
  match s with
  | EmptyString => false
  | _ => true
  end.

(** [set(l)] and [a.intersection(b)] on strings. *)
Definition set_of (l : list string) : set string :=
  fold_right (set_add string_dec) (empty_set string) l.

Definition intersection (a b : set string) : set string :=
  set_inter string_dec a b.

(** *** Random numbers *)

(** [random.randint(a, b)], for [a <= b]: an integer [N] with
    [a <= N <= b].  The generator itself is not modelled: [r] is the number
    it delivers next, any integer, and the value returned is that number
    brought into the range.  Every integer of the range is returned for
    some [r], each for as many [r] as any other in a whole number of
    periods. *)
Definition randint (a b : Z) (r : Z) : Z := (a + r mod (b - a + 1))%Z.

(** *** Sorting *)

(** [sorted(l, key=key, reverse=True)].  Python's sort is stable, also with
    [reverse=True]: elements with equal keys keep their original order.  It
    only ever asks whether one key is less than another. *)
Section Sorted.
Context {A : Type} (key : A -> pyfloat).

Fixpoint insert_desc (x : A) (l : list A) : list A :=
  match l with
  | [] => [x]
  | y :: l' =>
      if flt (key x) (key y) then y :: insert_desc x l' else x :: l
  end.

Definition sorted_reverse (l : list A) : list A :=
  fold_right insert_desc [] l.
End Sorted.

End Py.

(* ================================================================== *)
(** ** Listing metadata

    The metadata dict of a stored listing, as the search returns it and as
    [augment_listing_with_preferences] and [score_listing] read it. *)

Module Metadata.
Record t : Type := mk {
  title : option string;
  location : option string;
  price : option Py.pynum;
  square_feet : option Py.pynum;
  number_of_bedrooms : option Z;
  number_of_bathrooms : option Z;
  amenities : option Py.pyseq;
  page_content : option string;
  neighborhood_description : option string
}.
End Metadata.

(* ================================================================== *)
(** ** llm_pipeline/utils.py *)

Module Utils.
Import Py.

(** What [logger.warning] / [logging.warning] is called with: the call site
    and the values its message interpolates. *)
Inductive log_record : Type :=
| WarnParseInt (val dflt : pyval)
| WarnParseFloat (val dflt : pyval) (error : exn)
| WarnLLMFailed (error : exn).

(** A computation that may raise and that writes warnings to the log. *)
Definition M (A : Type) : Type := (result A * list log_record)%type.

Definition ret {A} (a : A) : M A := (Ok a, []).
Definition raise {A} (e : exn) : M A := (Raise e, []).
Definition lift {A} (r : result A) : M A := (r, []).
Definition warning (r : log_record) : M unit := (Ok tt, [r]).

Definition bind {A B} (m : M A) (k : A -> M B) : M B :=
  match m with
  | (Ok a, w) => let (r, w') := k a in (r, w ++ w')
  | (Raise e, w) => (Raise e, w)
  end.

(** [try: body except <classes> as e: handler e] *)
Definition try_except {A} (body : M A) (catches : exn -> bool)
    (handler : exn -> M A) : M A :=
  match body with
  | (Raise e, w) =>
      if catches e then let (r, w') := handler e in (r, w ++ w')
      else (Raise e, w)
  | (Ok a, w) => (Ok a, w)
  end.

Notation "x <- m ;; k" := (bind m (fun x => k))
  (at level 61, m at next level, right associativity).
Notation "m ;;; k" := (bind m (fun _ => k))
  (at level 61, right associativity).

(** [except (ValueError, TypeError)] *)
Definition value_or_type_error (e : exn) : bool :=
  match e with
  | ValueError | TypeError => true
  | _ => false
  end.

(** [except Exception] *)
Definition any_exception (e : exn) : bool := true.

Definition safe_int (val dflt : pyval) : M pyval :=
  try_except
    (z <- lift (int val) ;; ret (VNum (PInt z)))
    value_or_type_error
    (fun _ => warning (WarnParseInt val dflt) ;;; ret dflt).

Section WithRepr.
Variable float_repr : pyfloat -> string.

(** [float(s)] as a computation. *)
Definition float_str (s : string) : M pyfloat :=
  match float_of_string s with
  | Some f => ret f
  | None => raise ValueError
  end.

Definition safe_float (val dflt : pyval) : M pyval :=
  try_except
    (f <- float_str (keep_digits_and_dots (str float_repr val)) ;;
     ret (VNum (PFloat f)))
    any_exception
    (fun excpt => warning (WarnParseFloat val dflt excpt) ;;; ret dflt).

(** [r] is what the generator delivers to [random.randint]; the default is
    computed before [safe_float] is called, whether it is needed or not. *)
Definition parse_price (r : Z) (val : pyval) : M pyval :=
  safe_float val (VNum (PInt (randint 100000 900000 r))).

(** An f-string field showing [d.get(key)]. *)
Definition show {A} (render : A -> string) (field : option A) : string :=
  match field with
  | Some a => render a
  | None => "None"
  end.

(** [int(price)] for [price = listing.get("price")]. *)
Definition int_of_field (field : option pynum) : result Z :=
  match field with
  | Some n => int (VNum n)
  | None => int VNone
  end.

(** [for amenity in amenities] for [amenities = listing.get("amenities")]. *)
Definition iterate (field : option pyseq) : result (list string) :=
  match field with
  | Some v => Ok (items v)
  | None => Raise TypeError
  end.

(** The adjacent string literals of lines 100-105 form one string, and it
    is on that whole string that [.join] is called. *)
Definition raw_augmented_description (listing : Metadata.t)
    (preferences : string) : M string :=
  let location := Metadata.location listing in
  let bedrooms := Metadata.number_of_bedrooms listing in
  let bathrooms := Metadata.number_of_bathrooms listing in
  let area := Metadata.square_feet listing in
  let price := Metadata.price listing in
  let amenities := Metadata.amenities listing in
  let description := Metadata.page_content listing in
  let neighborhood_desc := Metadata.neighborhood_description listing in
  whole_price <- lift (int_of_field price) ;;
  let separator :=
    ("Welcome to this cozy " ++ show str_of_int bedrooms ++ "-bedroom, "
       ++ show str_of_int bathrooms ++ "-bathrooms home "
     ++ "that could be perfect for your family in "
       ++ show id location ++ "! "
     ++ "It offers approximately " ++ show (str_of_num float_repr) area
       ++ " square feet of living space, priced at $"
       ++ format_thousands whole_price ++ ". "
     ++ show id description ++ " " ++ show id neighborhood_desc
     ++ "This fits your preference for " ++ preferences
       ++ " with the following amenities available:" ++ nl ++ nl
     ++ EmptyString)%string in
  each <- lift (iterate amenities) ;;
  ret (join separator
         (map (fun amenity => ("- " ++ amenity ++ nl)%string) each)).

(** [llm] is [llm.predict]. *)
Definition augment_listing_with_preferences (listing : Metadata.t)
    (preferences : string) (llm : string -> result string) : M string :=
  raw <- raw_augmented_description listing preferences ;;
  let prompt :=
    ("Refine the following real estate listing description to sound "
     ++ "more professional and appealing. "
     ++ "Keep all the factual information intact:" ++ nl ++ nl
     ++ raw)%string in
  try_except
    (refined <- lift (llm prompt) ;; ret (strip refined))
    any_exception
    (fun e => warning (WarnLLMFailed e) ;;; ret raw).
End WithRepr.

End Utils.

(* ================================================================== *)
(** ** app.py *)

(** The preference dict: the six fields of the search form.  The two text
    inputs for amenities and neighbourhoods deliver a string; the design
    document also allows a list of strings there. *)
Module UserInputs.
Record t : Type := mk {
  square_feet : option string;
  city : option string;
  budget : option string;
  features : option string;
  amenities : option Py.pyseq;
  neighborhoods : option Py.pyseq
}.
End UserInputs.

(** A search hit: the stored text and its metadata dict. *)
Module Document.
Record t : Type := mk {
  page_content : string;
  metadata : Metadata.t
}.
End Document.

Module App.
Import Py.

(** [d.get(key)] used as a condition, for a text field, a sequence field
    and a number field: the value when it is there and truthy. *)
Definition get_text (field : option string) : option string :=
  match field with
  | Some s => if str_truthy s then Some s else None
  | None => None
  end.

Definition get_seq (field : option pyseq) : option pyseq :=
  match field with
  | Some v => if seq_truthy v then Some v else None
  | None => None
  end.

Definition get_num (field : option pynum) : option pynum :=
  match field with
  | Some n => if num_truthy n then Some n else None
  | None => None
  end.

(** [prompt_parts.append(part)] when the condition gave a value. *)
Definition append_if {A} (prompt_parts : list string) (field : option A)
    (part : A -> string) : list string :=
  match field with
  | Some a => prompt_parts ++ [part a]
  | None => prompt_parts
  end.

Definition parse_preferences (user_inputs_dict : UserInputs.t) : string :=
  let prompt_parts := [] in
  let prompt_parts :=
    append_if prompt_parts (get_text (UserInputs.square_feet user_inputs_dict))
      (fun v => "I want a house of around " ++ v ++ " sq ft.")%string in
  let prompt_parts :=
    append_if prompt_parts (get_text (UserInputs.city user_inputs_dict))
      (fun v => "My preferred city is " ++ v ++ ".")%string in
  let prompt_parts :=
    append_if prompt_parts (get_text (UserInputs.budget user_inputs_dict))
      (fun v => "My budget is around " ++ v ++ ".")%string in
  let prompt_parts :=
    append_if prompt_parts (get_text (UserInputs.features user_inputs_dict))
      (fun v => "I'm looking for features like: " ++ v ++ ".")%string in
  let prompt_parts :=
    append_if prompt_parts (get_seq (UserInputs.amenities user_inputs_dict))
      (fun v => "I want amenities like: "
                ++ join ", " (items v) ++ ".")%string in
  let prompt_parts :=
    append_if prompt_parts
      (get_seq (UserInputs.neighborhoods user_inputs_dict))
      (fun v => "My preferred neighborhoods are: "
                ++ join ", " (items v) ++ ".")%string in
  join nl prompt_parts.

(** The dict comprehension of [run_ui] (lines 191 and 217): a key is kept
    unless its value is None, the empty string or the empty list. *)
Definition keep_text (field : option string) : option string :=
  match field with
  | Some EmptyString => None
  | _ => field
  end.

Definition keep_seq (field : option pyseq) : option pyseq :=
  match field with
  | Some (Str EmptyString) | Some (Lst []) => None
  | _ => field
  end.

Definition drop_empty (raw_inputs : UserInputs.t) : UserInputs.t :=
  UserInputs.mk
    (keep_text (UserInputs.square_feet raw_inputs))
    (keep_text (UserInputs.city raw_inputs))
    (keep_text (UserInputs.budget raw_inputs))
    (keep_text (UserInputs.features raw_inputs))
    (keep_seq (UserInputs.amenities raw_inputs))
    (keep_seq (UserInputs.neighborhoods raw_inputs)).


(** The hard skip of lines 106-108. *)
Definition other_city (user_inputs : UserInputs.t) (metadata : Metadata.t)
  : bool :=
  match get_text (UserInputs.city user_inputs),
        get_text (Metadata.location metadata) with
  | Some city, Some location =>
      negb (String.eqb (lower location) (lower city))
  | _, _ => false
  end.

(** The body of the two [try] blocks (lines 116-119 and 126-129), which
    differ in the constant only:
    [wanted = float(..); actual = float(..); diff = abs(wanted - actual);
     max(0, cap - diff / wanted)]. *)
Definition closeness (cap : Z) (wanted_text : string) (actual_num : pynum)
  : result pyfloat :=
  match float_of_string wanted_text with
  | None => Raise ValueError
  | Some wanted =>
      let actual := to_float actual_num in
      let diff := fabs (fsub wanted actual) in
      match fdiv diff wanted with
      | Raise e => Raise e
      | Ok ratio => Ok (max (of_int 0) (fsub (of_int cap) ratio))
      end
  end.

(** [try: score += body except: pass] *)
Definition add_or_pass (score : pyfloat) (body : result pyfloat) : pyfloat :=
  match body with
  | Ok x => fadd score x
  | Raise _ => score
  end.

Definition add_budget (user_inputs : UserInputs.t) (metadata : Metadata.t)
    (score : pyfloat) : pyfloat :=
  match get_text (UserInputs.budget user_inputs),
        get_num (Metadata.price metadata) with
  | Some budget, Some price => add_or_pass score (closeness 3 budget price)
  | _, _ => score
  end.

Definition add_square_feet (user_inputs : UserInputs.t)
    (metadata : Metadata.t) (score : pyfloat) : pyfloat :=
  match get_text (UserInputs.square_feet user_inputs),
        get_num (Metadata.square_feet metadata) with
  | Some desired, Some actual => add_or_pass score (closeness 2 desired actual)
  | _, _ => score
  end.

(** Lines 134-136 and 139-141: the count, as text, occurs in the features
    text. *)
Definition add_count (count : option Z) (user_inputs : UserInputs.t)
    (score : pyfloat) : pyfloat :=
  match count, get_text (UserInputs.features user_inputs) with
  | Some n, Some features =>
      if contains features (str_of_int n) then fadd score (of_int 1)
      else score
  | _, _ => score
  end.

Definition matched (wanted : pyseq) (theirs : list string) : set string :=
  intersection (set_of (items wanted)) (set_of theirs).

Definition add_amenities (user_inputs : UserInputs.t) (metadata : Metadata.t)
    (score : pyfloat) : pyfloat :=
  match Metadata.amenities metadata,
        get_seq (UserInputs.amenities user_inputs) with
  | Some (Lst theirs), Some wanted =>
      fadd score
        (fmul (of_int (Z.of_nat (List.length (matched wanted theirs))))
              (Fin (1 # 2)))
  | _, _ => score
  end.

Definition score_listing (user_inputs : UserInputs.t)
    (individual_listing : Document.t) : pyfloat :=
  let score := of_int 0 in
  let metadata := Document.metadata individual_listing in
  if other_city user_inputs metadata then of_int 0
  else
    let score := fadd score (of_int 5) in
    let score := add_budget user_inputs metadata score in
    let score := add_square_feet user_inputs metadata score in
    let score :=
      add_count (Metadata.number_of_bedrooms metadata) user_inputs score in
    let score :=
      add_count (Metadata.number_of_bathrooms metadata) user_inputs score in
    let score := add_amenities user_inputs metadata score in
    score.

Definition rerank_listings (listings : list Document.t)
    (user_inputs : UserInputs.t) : list (pyfloat * Document.t) :=
  let scored :=
    map (fun doc => (score_listing user_inputs doc, doc)) listings in
  let ranked := sorted_reverse fst scored in
  firstn 3 ranked.

(** Lines 152-155 for any scoring function: what [rerank_listings] does
    with the scores, whatever numbers [score_listing] computes. *)
Definition rerank_by (score_listing : Document.t -> pyfloat)
    (listings : list Document.t) : list (pyfloat * Document.t) :=
  let scored := map (fun doc => (score_listing doc, doc)) listings in
  let ranked := sorted_reverse fst scored in
  firstn 3 ranked.

(** *** The scoring steps over any float arithmetic

    Lines 101-149 once more, with the two places where binary64 arithmetic
    rounds left open: [plus] is the [+=] on the running score, and
    [proximity cap wanted actual] is what the body of a [try] block
    computes (lines 116-119 and 126-129), or the exception it raises.
    [len(matched) * 0.5] is exact in binary64 and is kept as it is.
    [score_listing] is the instance with the exact [fadd] and
    [closeness]. *)
Section OverFloats.
Variable plus : pyfloat -> pyfloat -> pyfloat.
Variable proximity : Z -> string -> pynum -> result pyfloat.

Definition add_or_pass_with (score : pyfloat) (body : result pyfloat)
  : pyfloat :=
  match body with
  | Ok x => plus score x
  | Raise _ => score
  end.

Definition add_budget_with (user_inputs : UserInputs.t)
    (metadata : Metadata.t) (score : pyfloat) : pyfloat :=
  match get_text (UserInputs.budget user_inputs),
        get_num (Metadata.price metadata) with
  | Some budget, Some price =>
      add_or_pass_with score (proximity 3 budget price)
  | _, _ => score
  end.

Definition add_square_feet_with (user_inputs : UserInputs.t)
    (metadata : Metadata.t) (score : pyfloat) : pyfloat :=
  match get_text (UserInputs.square_feet user_inputs),
        get_num (Metadata.square_feet metadata) with
  | Some desired, Some actual =>
      add_or_pass_with score (proximity 2 desired actual)
  | _, _ => score
  end.

Definition add_count_with (count : option Z) (user_inputs : UserInputs.t)
    (score : pyfloat) : pyfloat :=
  match count, get_text (UserInputs.features user_inputs) with
  | Some n, Some features =>
      if contains features (str_of_int n) then plus score (of_int 1)
      else score
  | _, _ => score
  end.

Definition add_amenities_with (user_inputs : UserInputs.t)
    (metadata : Metadata.t) (score : pyfloat) : pyfloat :=
  match Metadata.amenities metadata,
        get_seq (UserInputs.amenities user_inputs) with
  | Some (Lst theirs), Some wanted =>
      plus score
        (fmul (of_int (Z.of_nat (List.length (matched wanted theirs))))
              (Fin (1 # 2)))
  | _, _ => score
  end.

Definition score_listing_with (user_inputs : UserInputs.t)
    (individual_listing : Document.t) : pyfloat :=
  let score := of_int 0 in
  let metadata := Document.metadata individual_listing in
  if other_city user_inputs metadata then of_int 0
  else
    let score := plus score (of_int 5) in
    let score := add_budget_with user_inputs metadata score in
    let score := add_square_feet_with user_inputs metadata score in
    let score :=
      add_count_with (Metadata.number_of_bedrooms metadata) user_inputs
        score in
    let score :=
      add_count_with (Metadata.number_of_bathrooms metadata) user_inputs
        score in
    let score := add_amenities_with user_inputs metadata score in
    score.
End OverFloats.

End App.

(* ================================================================== *)
(** ** Vocabulary of the stated properties *)

Module Props.
Import Py App.

(** A list of scores in descending order: no element is below a later one. *)
Definition descending (scores : list pyfloat) : Prop :=
  StronglySorted (fun earlier later => fle later earlier = true) scores.

(** [x] may stand before [y] in a descending order by [key]. *)
Definition key_desc {A} (key : A -> pyfloat) (x y : A) : Prop :=
  fle (key y) (key x) = true.

(** Two scores are identical: the comparison [a == b] of Python. *)
Definition same_score (a b : pyfloat) : bool := fle a b && fle b a.

(** [x] occurs somewhere before [y] in [l]. *)
Definition precedes {A} (x y : A) (l : list A) : Prop :=
  exists l1 l2 l3, l = l1 ++ x :: l2 ++ y :: l3.

Definition at_least_five (score : pyfloat) : Prop :=
  fle (of_int 5) score = true.

Definition nonneg (x : pyfloat) : Prop := fle (of_int 0) x = true.

(** The list [rerank_listings] sorts: every candidate with its score. *)
Definition scored (user_inputs : UserInputs.t) (listings : list Document.t)
  : list (pyfloat * Document.t) :=
  map (fun doc => (score_listing user_inputs doc, doc)) listings.

(** The candidate's location differs from the wanted city, letter case
    aside.  A candidate without a location has one that differs. *)
Definition location_differs (location : option string) (city : string)
  : Prop :=
  option_map lower location <> Some (lower city).

(** The same listing with the amenities key taken out of its metadata. *)
Definition without_amenities (doc : Document.t) : Document.t :=
  let m := Document.metadata doc in
  Document.mk (Document.page_content doc)
    (Metadata.mk (Metadata.title m) (Metadata.location m) (Metadata.price m)
       (Metadata.square_feet m) (Metadata.number_of_bedrooms m)
       (Metadata.number_of_bathrooms m) None (Metadata.page_content m)
       (Metadata.neighborhood_description m)).

(** 0.5 for each of [n] shared amenities. *)
Definition half_each (n : nat) : pyfloat :=
  Fin (inject_Z (Z.of_nat n) * (1 # 2)).

(** The call returned the integer [N]. *)
Definition returns_int {L} (outcome : Py.result pyval * L) (N : Z) : bool :=
  match fst outcome with
  | Ok (VNum (PInt z)) => Z.eqb z N
  | _ => false
  end.

(** How many of the generator outputs [0 .. outputs - 1] satisfy [test]. *)
Definition how_many (test : Z -> bool) (outputs : nat) : nat :=
  List.length (filter (fun r => test (Z.of_nat r)) (seq 0 outputs)).

(** The conversion inside [safe_float] fails on this value. *)
Definition unparsable (float_repr : pyfloat -> string) (val : pyval) : Prop :=
  float_of_string (keep_digits_and_dots (str float_repr val)) = None.

(** *** The query text as the design document words it

    One sentence per field that is present and not empty, by a fixed
    template, in a fixed order of fields, amenities and neighbourhoods
    comma-joined, the sentences separated by newlines.  The document types
    amenities and neighbourhoods as sequences of strings. *)
Inductive field : Type :=
| f_square_feet | f_city | f_budget | f_features | f_amenities
| f_neighborhoods.

Definition field_order : list field :=
  [f_square_feet; f_city; f_budget; f_features; f_amenities;
   f_neighborhoods].

Inductive field_value : Type :=
| Text (s : string)
| Seq (v : pyseq).

Definition lookup (d : UserInputs.t) (f : field) : option field_value :=
  match f with
  | f_square_feet => option_map Text (UserInputs.square_feet d)
  | f_city => option_map Text (UserInputs.city d)
  | f_budget => option_map Text (UserInputs.budget d)
  | f_features => option_map Text (UserInputs.features d)
  | f_amenities => option_map Seq (UserInputs.amenities d)
  | f_neighborhoods => option_map Seq (UserInputs.neighborhoods d)
  end.

(** Empty string or empty sequence. *)
Definition is_empty (v : field_value) : bool :=
  match v with
  | Text EmptyString | Seq (Str EmptyString) | Seq (Lst []) => true
  | _ => false
  end.

Definition present (d : UserInputs.t) (f : field) : bool :=
  match lookup d f with
  | Some v => negb (is_empty v)
  | None => false
  end.

(** What the f-string of the program shows for a field: a text as it is,
    and [', '.join(v)] for the others, which goes through a list element by
    element and through a text letter by letter. *)
Definition rendered (v : option field_value) : string :=
  match v with
  | Some (Text s) => s
  | Some (Seq q) => join ", " (items q)
  | None => EmptyString
  end.




Fixpoint flatten (parts : list string) : string :=
  match parts with
  | [] => EmptyString
  | part :: rest => (part ++ flatten rest)%string
  end.

(** The parts in a row, [sep] between each two. *)
Definition separated (sep : string) (parts : list string) : string :=
  match parts with
  | [] => EmptyString
  | first :: rest =>
      (first ++ flatten (map (fun part => sep ++ part) rest))%string
  end.

Definition comma_joined (elements : list string) : string :=
  separated ", " elements.

(** A text as it is, a sequence comma-joined.  (A text in the place of a
    sequence is outside the document's types and is left as it is.) *)
Definition shown (v : option field_value) : string :=
  match v with
  | Some (Text s) => s
  | Some (Seq (Lst elements)) => comma_joined elements
  | Some (Seq (Str s)) => s
  | None => EmptyString
  end.

Definition template (f : field) (value : string) : string :=
  match f with
  | f_square_feet => "I want a house of around " ++ value ++ " sq ft."
  | f_city => "My preferred city is " ++ value ++ "."
  | f_budget => "My budget is around " ++ value ++ "."
  | f_features => "I'm looking for features like: " ++ value ++ "."
  | f_amenities => "I want amenities like: " ++ value ++ "."
  | f_neighborhoods => "My preferred neighborhoods are: " ++ value ++ "."
  end%string.



(** *** The end-to-end scenario *)

Definition located (city : string) (doc : Document.t) : Prop :=
  Metadata.location (Document.metadata doc) = Some city.

Definition priced (price : Z) (doc : Document.t) : Prop :=
  option_map to_float (Metadata.price (Document.metadata doc))
  = Some (of_int price).

Definition sized (square_feet : Z) (doc : Document.t) : Prop :=
  option_map to_float (Metadata.square_feet (Document.metadata doc))
  = Some (of_int square_feet).

End Props.

(* ================================================================== *)
(** ** Sample data *)

Module Examples.
Import Py App Props.

Definition no_repr (f : pyfloat) : string := "?".

Definition listing (location : option string) (price square_feet : Z)
    (amenities : option pyseq) : Document.t :=
  Document.mk "A bright flat."
    (Metadata.mk (Some "City flat") location (Some (PInt price))
       (Some (PInt square_feet)) (Some 3%Z) (Some 2%Z) amenities None None).

Definition berlin_a : Document.t :=
  listing (Some "Berlin") 440000 1180 (Some (Lst ["gym"; "pool"])).
Definition berlin_b : Document.t :=
  listing (Some "Berlin") 600000 2000 (Some (Lst ["garage"])).
Definition munich_1 : Document.t :=
  listing (Some "Munich") 450000 1200 (Some (Lst ["pool"; "garden"])).
Definition munich_2 : Document.t :=
  listing (Some "Munich") 300000 900 (Some (Lst [])).
Definition munich_3 : Document.t :=
  listing (Some "Munich") 455000 1210 (Some (Str "pool")).
Definition unnamed_place : Document.t :=
  listing (Some EmptyString) 440000 1180 (Some (Lst ["gym"; "pool"])).
Definition no_place : Document.t :=
  listing None 440000 1180 (Some (Lst ["gym"; "pool"])).

(** {budget: "450000", city: "Berlin", square_feet: "1200"} *)
Definition berlin_query : UserInputs.t :=
  UserInputs.mk (Some "1200") (Some "Berlin") (Some "450000") None None None.

Definition berlin_only : UserInputs.t :=
  UserInputs.mk None (Some "Berlin") None None None None.

Definition pool_and_garden : UserInputs.t :=
  UserInputs.mk None None None None (Some (Lst ["pool"; "garden"])) None.


(** The scores of the two Berlin listings under [berlin_query]. *)
Definition score_a : pyfloat :=
  Eval vm_compute in score_listing berlin_query berlin_a.
Definition score_b : pyfloat :=
  Eval vm_compute in score_listing berlin_query berlin_b.

(** A listing with no amenity, and one with a single amenity. *)
Definition bare_listing : Metadata.t :=
  Metadata.mk (Some "City flat") (Some "Berlin") (Some (PInt 440000))
    (Some (PInt 1180)) (Some 3%Z) (Some 2%Z) (Some (Lst []))
    (Some "A bright flat.") (Some "Quiet streets.").
Definition one_amenity_listing : Metadata.t :=
  Metadata.mk (Some "City flat") (Some "Berlin") (Some (PInt 440000))
    (Some (PInt 1180)) (Some 3%Z) (Some 2%Z) (Some (Lst ["Balcony"]))
    (Some "A bright flat.") (Some "Quiet streets.").

(** A chat model whose call times out. *)
Definition failing_llm (prompt : string) : result string :=
  Raise (LibraryError "Timeout").

End Examples.

(* ================================================================== *)
(** ** llm_pipeline/utils.py: the fallback helpers *)

Module Fallbacks.
Import Py Utils.

(** A call that returns or fails with the IndexError of an empty or too
    short sequence. *)
Inductive picked (A : Type) : Type :=
| Picked (a : A)
| IndexError.
Arguments Picked {A} a.
Arguments IndexError {A}.

(** [random.choice(lst)]: [draw] is the index the generator picks, which is
    below [len(lst)] for a list that is not empty. *)
Definition pick_random {A} (lst : list A) (draw : nat) : picked A :=
  match nth_error lst draw with
  | Some a => Picked a
  | None => IndexError
  end.

Section WithRuntime.
Variable float_repr : pyfloat -> string.
(** Truth value of an object that is neither a number nor a string, for
    instance of a list or a dict, given by the text [str] shows for it. *)
Variable other_truthy : string -> bool.

(** [bool(v)] *)
Definition truthy (v : pyval) : bool :=
  match v with
  | VNone => false
  | VBool b => b
  | VNum n => num_truthy n
  | VStr s => str_truthy s
  | VOther shown => other_truthy shown
  end.

Definition fallback_string (val : pyval) (fallback_list : list string)
    (draw : nat) : picked string :=
  if truthy val then Picked (str float_repr val)
  else pick_random fallback_list draw.
End WithRuntime.

(** [r] is what the generator delivers to [random.randint], which is
    called only when no default is given. *)
Definition fallback_int (r : Z) (val dflt : pyval) : M pyval :=
  let dflt :=
    match dflt with
    | VNone => VNum (PInt (randint 1 4 r))
    | _ => dflt
    end in
  safe_int val dflt.

Definition CITIES : list string :=
  ["Berlin"; "Munich"; "Hamburg"; "Cologne"; "Frankfurt"].

End Fallbacks.

(* ================================================================== *)
(** ** llm_pipeline/logger.py

    The logging module keeps one logger per name; [logging.getLogger]
    creates it on first use, without handler and with level NOTSET. *)

Module Logger.

(** A StreamHandler with its Formatter. *)
Record handler : Type := mk_handler {
  fmt : string;
  datefmt : string
}.

Record logger : Type := mk_logger {
  handlers : list handler;
  level : Z
}.

(** The loggers by name. *)
Definition registry : Type := string -> logger.

Definition NOTSET : Z := 0.
Definition INFO : Z := 20.

Definition fresh : logger := mk_logger [] NOTSET.

Definition empty_registry : registry := fun _ => fresh.

Definition update (reg : registry) (name : string) (l : logger) : registry :=
  fun n => if String.eqb n name then l else reg n.

Definition stream_handler : handler :=
  mk_handler "[%(asctime)s] %(levelname)s - %(message)s" "%Y-%m-%d %H:%M:%S".

(** The registry after the call; the logger returned is the one it holds
    under [name]. *)
Definition setup_logger (name : string) (level : Z) (reg : registry)
  : registry :=
  let logger := reg name in
  match handlers logger with
  | [] =>
      let logger := mk_logger (handlers logger ++ [stream_handler])
                              (Logger.level logger) in
      let logger := mk_logger (handlers logger) level in
      update reg name logger
  | _ :: _ => reg
  end.

End Logger.

(* ================================================================== *)
(** ** generate_listings_and_index.py

    The indexer is an outside collaborator: what its constructor and its
    two methods return or raise is a parameter, and the calls that write
    are recorded. *)

Module Pipeline.
Import Py.

Section WithIndexer.
Variable Listing : Type.

Record indexer : Type := mk_indexer {
  run_generation_loop : Z -> result (list Listing);
  index_and_save : list Listing -> bool -> result unit
}.

(** What the run leaves behind: the four logging call sites of [main] and
    the call of [index_and_save] with its arguments. *)
Inductive event : Type :=
| InfoStarting
| WarningNoListings
| InfoCompleted
| LoggedException (e : exn)
| IndexAndSave (listings : list Listing) (create_table : bool).

(** [new_indexer] is the call of the constructor RealEstateIndexer. *)
Definition main (new_indexer : result indexer) : list event :=
  [InfoStarting]
  ++ match new_indexer with
     | Raise e => [LoggedException e]
     | Ok indexer =>
         match run_generation_loop indexer 50 with
         | Raise e => [LoggedException e]
         | Ok [] => [WarningNoListings; InfoCompleted]
         | Ok ((_ :: _) as listings) =>
             IndexAndSave listings true
             :: match index_and_save indexer listings true with
                | Raise e => [LoggedException e]
                | Ok _ => [InfoCompleted]
                end
         end
     end.
End WithIndexer.

End Pipeline.

(* ================================================================== *)
(** ** app.py: the amenities line of a displayed listing

    Lines 267-274 and 310-317.  [json.loads] is a parameter; what it can
    return is a JSON value. *)

Module Display.
Import Py.

(** An array element is a string or some other value; of an object only
    the keys matter here. *)
Inductive json : Type :=
| JNull
| JBool (b : bool)
| JNum (n : pynum)
| JStr (s : string)
| JArr (elements : list (option string))
| JObj (keys : list string).

(** What [metadata.get('amenities', [])] gives. *)
Definition of_field (field : option pyseq) : json :=
  match field with
  | None => JNull
  | Some (Str s) => JStr s
  | Some (Lst l) => JArr (map Some l)
  end.

Definition json_truthy (v : json) : bool :=
  match v with
  | JNull => false
  | JBool b => b
  | JNum n => num_truthy n
  | JStr s => str_truthy s
  | JArr l => match l with [] => false | _ => true end
  | JObj m => match m with [] => false | _ => true end
  end.

(** The items of an array, when each of them is a string as [join] wants. *)
Fixpoint all_strings (l : list (option string)) : option (list string) :=
  match l with
  | [] => Some []
  | Some s :: l' =>
      match all_strings l' with
      | Some r => Some (s :: r)
      | None => None
      end
  | None :: _ => None
  end.

(** [', '.join(v)] *)
Definition join_json (v : json) : result string :=
  match v with
  | JStr s => Ok (join ", " (chars s))
  | JArr l =>
      match all_strings l with
      | Some r => Ok (join ", " r)
      | None => Raise TypeError
      end
  | JObj keys => Ok (join ", " keys)
  | JNull | JBool _ | JNum _ => Raise TypeError
  end.

Section WithJson.
(** [json.loads(s)]; [None] is the JSONDecodeError. *)
Variable json_loads : string -> option json.

(** The text put after the label of the amenities line, [None] when no
    line is written. *)
Definition amenities_line (field : option pyseq) : result (option string) :=
  let amenities := of_field field in
  let amenities :=
    match amenities with
    | JStr s =>
        match json_loads s with
        | Some decoded => decoded
        | None => JArr [Some s]
        end
    | _ => amenities
    end in
  if json_truthy amenities then
    match join_json amenities with
    | Ok text => Ok (Some text)
    | Raise e => Raise e
    end
  else Ok None.
End WithJson.

End Display.

(* ================================================================== *)
(** ** Further vocabulary *)

Module MoreProps.
Import Py Utils App Props.






(** A listing has what the description needs to be put together: a price
    that is a finite number, and amenities. *)
Definition describable (listing : Metadata.t) : bool :=
  match Metadata.price listing with
  | Some (PInt _) | Some (PFloat (Fin _)) => true
  | _ => false
  end
  && match Metadata.amenities listing with
     | Some _ => true
     | None => false
     end.

(** The price as the description shows it. *)
Definition shown_price (listing : Metadata.t) : string :=
  match int_of_field (Metadata.price listing) with
  | Ok z => format_thousands z
  | Raise _ => EmptyString
  end.

(** The characters of a decimal numeral. *)
Definition udigits (d : Decimal.uint) : list ascii :=
  list_ascii_of_string (NilEmpty.string_of_uint d).

(** A digit or a dot. *)
Definition numeric_char (c : ascii) : Prop :=
  is_digit c = true \/ c = "."%char.

(** No whitespace at either end. *)
Definition trimmed (s : string) : Prop :=
  match list_ascii_of_string s with
  | [] => True
  | c :: cs => is_space c = false /\ is_space (last cs c) = false
  end.

(** A number that is not below zero and not NaN. *)
Definition nonneg_number (v : pyval) : Prop :=
  exists n, v = VNum n /\ fle (of_int 0) (to_float n) = true.

(** CPython turns an int into text, and a text into an int, only up to
    4300 digits. *)
Definition max_str_digits : Z := 4300.

Definition within_digit_limit (z : Z) : Prop :=
  (Z.abs z < 10 ^ max_str_digits)%Z.

(** [str(val)] stays within that limit. *)
Definition printable (val : pyval) : Prop :=
  match val with
  | VNum (PInt z) => within_digit_limit z
  | _ => True
  end.

(** An integer that binary64 represents exactly. *)
Definition exact_in_binary64 (z : Z) : Prop := (Z.abs z <= 2 ^ 53)%Z.

End MoreProps.

(* ================================================================== *)
(** ** Proof steps used more than once *)

Module Tactics.

(** Case analysis on every boolean in the context. *)
Ltac bools := repeat match goal with s : bool |- _ => destruct s end.

(** Case analysis on one field of the form: absent, empty or not empty. *)
Ltac text_cases x := destruct x as [[|? ?]|].
Ltac seq_cases x := destruct x as [[[|? ?]|[|? ?]]|].

End Tactics.

(* ================================================================== *)
(** ** Facts about the built-ins *)

Module PyFacts.
Import Py Props Tactics.

Lemma Qltb_lt (x y : Q) : Qltb x y = true <-> x < y.
Proof.
  unfold Qltb. rewrite negb_true_iff, <- not_true_iff_false, Qle_bool_iff.
  split; [apply Qnot_le_lt | apply Qlt_not_le].
Qed.

Lemma Qltb_ge (x y : Q) : Qltb x y = false <-> y <= x.
Proof.
  unfold Qltb. rewrite negb_false_iff. apply Qle_bool_iff.
Qed.

Lemma flt_false_fle (a b : pyfloat) :
  a <> NaN -> b <> NaN -> flt a b = false -> fle b a = true.
Proof.
  destruct a as [x|n|], b as [y|m|]; simpl; try congruence; intros _ _;
    try solve [bools; simpl; congruence].
  apply negb_false_iff.
Qed.

Lemma flt_true_fle (a b : pyfloat) : flt a b = true -> fle b a = false.
Proof.
  destruct a as [x|n|], b as [y|m|]; simpl; try congruence;
    try solve [bools; simpl; congruence].
  apply negb_true_iff.
Qed.

Lemma flt_true_fle_fwd (a b : pyfloat) : flt a b = true -> fle a b = true.
Proof.
  destruct a as [x|n|], b as [y|m|]; simpl; try congruence;
    try solve [bools; simpl; congruence].
  rewrite Qltb_lt, Qle_bool_iff. apply Qlt_le_weak.
Qed.

Lemma fle_trans (a b c : pyfloat) :
  fle a b = true -> fle b c = true -> fle a c = true.
Proof.
  destruct a as [x|n|], b as [y|m|], c as [z|k|]; simpl; try congruence;
    try solve [bools; simpl; congruence].
  rewrite !Qle_bool_iff. apply Qle_trans.
Qed.

Lemma fle_refl (a : pyfloat) : a <> NaN -> fle a a = true.
Proof.
  destruct a as [x|n|]; simpl; try congruence; intros _.
  - apply Qle_bool_iff, Qle_refl.
  - destruct n; reflexivity.
Qed.

Lemma fle_not_nan_l (a b : pyfloat) : fle a b = true -> a <> NaN.
Proof. destruct a, b; simpl; congruence. Qed.

Lemma fle_not_nan_r (a b : pyfloat) : fle a b = true -> b <> NaN.
Proof. destruct a, b; simpl; congruence. Qed.

(** *** The stable descending sort *)

Section SortFacts.
Context {A : Type} (key : A -> pyfloat).

Lemma insert_desc_perm (x : A) (l : list A) :
  Permutation (insert_desc key x l) (x :: l).
Proof.
  induction l as [|y l IH]; simpl; [reflexivity|].
  destruct (flt (key x) (key y)); [|reflexivity].
  rewrite IH. apply perm_swap.
Qed.

Lemma sorted_reverse_perm (l : list A) :
  Permutation (sorted_reverse key l) l.
Proof.
  induction l as [|x l IH]; simpl; [reflexivity|].
  rewrite insert_desc_perm. now constructor.
Qed.

Lemma sorted_reverse_length (l : list A) :
  List.length (sorted_reverse key l) = List.length l.
Proof. apply Permutation_length, sorted_reverse_perm. Qed.

Lemma insert_desc_sorted (x : A) (l : list A) :
  key x <> NaN -> Forall (fun y => key y <> NaN) l ->
  StronglySorted (key_desc key) l ->
StronglySorted (key_desc key) (insert_desc key x l).
Proof.
  intros Hx Hl Hs. induction Hs as [|y l Hs IH Hy]; simpl.
  - repeat constructor.
  - inversion Hl as [|? ? Hyn Hln]; subst.
    destruct (flt (key x) (key y)) eqn:E.
    + constructor; [auto|].
      eapply Permutation_Forall;
        [symmetry; apply insert_desc_perm|].
      constructor; [|assumption].
      now apply flt_true_fle_fwd.
    + constructor; [now constructor|].
      assert (Hxy : key_desc key x y) by now apply flt_false_fle.
      constructor; [assumption|].
      eapply Forall_impl; [|exact Hy].
      intros z Hz. unfold key_desc in *. eapply fle_trans; eassumption.
Qed.

Lemma sorted_reverse_sorted (l : list A) :
  Forall (fun y => key y <> NaN) l ->
  StronglySorted (key_desc key) (sorted_reverse key l).
Proof.
  induction 1 as [|x l Hx Hl IH]; simpl; [constructor|].
  apply insert_desc_sorted; auto.
  eapply Permutation_Forall; [symmetry; apply sorted_reverse_perm|].
  assumption.
Qed.

(** Stability, one class of equal keys at a time. *)
Lemma filter_insert_desc (p : A -> bool) (x : A) (l : list A) :
  (forall y, flt (key x) (key y) = true -> p x = true -> p y = false) ->
  filter p (insert_desc key x l) = filter p (x :: l).
Proof.
  intros Hp. induction l as [|y l IH]; [reflexivity|].
  simpl. destruct (flt (key x) (key y)) eqn:E; [|reflexivity].
  simpl in *. rewrite IH.
  destruct (p x) eqn:Px; [|reflexivity].
  now rewrite (Hp y E eq_refl).
Qed.

Lemma filter_sorted_reverse (p : A -> bool) (l : list A) :
  (forall x y, flt (key x) (key y) = true -> p x = true -> p y = false) ->
  filter p (sorted_reverse key l) = filter p l.
Proof.
  intros Hp. induction l as [|x l IH]; [reflexivity|].
  simpl sorted_reverse. rewrite filter_insert_desc by (intro; apply Hp).
  simpl. now rewrite IH.
Qed.

(** An element whose key is strictly above all others comes first. *)
Lemma sorted_reverse_top (x : A) (l1 l2 : list A) :
  Forall (fun y => flt (key y) (key x) = true) l1 ->
  Forall (fun y => flt (key x) (key y) = false) l2 ->
  sorted_reverse key (l1 ++ x :: l2) = x :: sorted_reverse key (l1 ++ l2).
Proof.
  intros H1 H2. induction H1 as [|y l1 Hy H1 IH]; simpl.
  - assert (H : Forall (fun y => flt (key x) (key y) = false)
                  (sorted_reverse key l2)).
    { eapply Permutation_Forall; [symmetry; apply sorted_reverse_perm|].
      assumption. }
    destruct (sorted_reverse key l2) as [|h t]; [reflexivity|].
    simpl. inversion H; subst. now rewrite H3.
  - rewrite IH. simpl. now rewrite Hy.
Qed.

(** Elements none of which is below another keep their order. *)
Lemma sorted_reverse_ties (l : list A) :
  (forall x y, In x l -> In y l -> flt (key x) (key y) = false) ->
  sorted_reverse key l = l.
Proof.
  induction l as [|x l IH]; intros H; [reflexivity|].
  simpl. rewrite IH by (intros; apply H; now right).
  destruct l as [|y l]; [reflexivity|].
  simpl. rewrite H; [reflexivity|now left|right; now left].
Qed.
End SortFacts.

(** *** Lists *)

Lemma precedes_filter {A} (p : A -> bool) (x y : A) (l : list A) :
  p x = true -> p y = true ->
  precedes x y l -> precedes x y (filter p l).
Proof.
  intros Px Py (l1 & l2 & l3 & ->).
  exists (filter p l1), (filter p l2), (filter p l3).
  rewrite filter_app. simpl. rewrite Px, filter_app. simpl. now rewrite Py.
Qed.

Lemma precedes_cons {A} (a x y : A) (l : list A) :
  precedes x y l -> precedes x y (a :: l).
Proof.
  intros (l1 & l2 & l3 & ->). now exists (a :: l1), l2, l3.
Qed.

Lemma of_filter_precedes {A} (p : A -> bool) (x y : A) (l : list A) :
  precedes x y (filter p l) -> precedes x y l.
Proof.
  induction l as [|a l IH]; simpl.
  - intros (l1 & l2 & l3 & H). destruct l1; discriminate.
  - destruct (p a) eqn:Pa.
    + intros (l1 & l2 & l3 & H). destruct l1 as [|b l1]; simpl in H.
      * injection H as <- H.
        assert (Hy : In y (filter p l)).
        { rewrite H. apply in_or_app. right. now left. }
        apply filter_In in Hy. destruct Hy as [Hy _].
        apply in_split in Hy. destruct Hy as (m1 & m2 & ->).
        now exists [], m1, m2.
      * injection H as <- H. apply precedes_cons, IH.
        now exists l1, l2, l3.
    + intros H. apply precedes_cons, IH, H.
Qed.

Lemma precedes_firstn {A} (n : nat) (x y : A) (l : list A) :
  precedes x y (firstn n l) -> precedes x y l.
Proof.
  intros (l1 & l2 & l3 & H). exists l1, l2, (l3 ++ skipn n l).
  rewrite <- (firstn_skipn n l) at 1. rewrite H.
  now rewrite <- !app_assoc, <- !app_comm_cons, <- !app_assoc.
Qed.

Lemma in_firstn {A} (n : nat) (x : A) (l : list A) :
  In x (firstn n l) -> In x l.
Proof.
  intros H. rewrite <- (firstn_skipn n l). apply in_or_app. now left.
Qed.

Lemma filter_firstn_prefix {A} (p : A -> bool) (n : nat) (l : list A) :
  exists k, filter p (firstn n l) = firstn k (filter p l).
Proof.
  revert n. induction l as [|a l IH]; intros [|n]; simpl;
    try (now exists 0%nat).
  destruct (IH n) as [k Hk]. destruct (p a).
  - exists (S k). simpl. now rewrite Hk.
  - now exists k.
Qed.

End PyFacts.

(* ================================================================== *)
(** ** Scores *)

Module ScoreFacts.
Import Py App Props Tactics PyFacts.

Lemma max_zero_nonneg (y : pyfloat) : nonneg (max (of_int 0) y).
Proof.
  unfold max, nonneg. destruct (flt (of_int 0) y) eqn:E.
  - now apply flt_true_fle_fwd.
  - reflexivity.
Qed.

Lemma closeness_nonneg (cap : Z) (wanted : string) (actual : pynum)
    (x : pyfloat) :
  closeness cap wanted actual = Ok x -> nonneg x.
Proof.
  unfold closeness. destruct (float_of_string wanted) as [w|]; [|discriminate].
  destruct (fdiv _ w); [|discriminate].
  intros [= <-]. apply max_zero_nonneg.
Qed.

Lemma fadd_at_least_five (s x : pyfloat) :
  at_least_five s -> nonneg x -> at_least_five (fadd s x).
Proof.
  unfold at_least_five, nonneg, of_int.
  destruct s as [a|n|], x as [b|m|]; simpl; try congruence;
    try solve [bools; simpl; congruence].
  rewrite !Qle_bool_iff. unfold inject_Z. intros; lra.
Qed.

Lemma add_or_pass_at_least_five (s : pyfloat) (body : result pyfloat) :
  at_least_five s -> (forall x, body = Ok x -> nonneg x) ->
  at_least_five (add_or_pass s body).
Proof.
  intros Hs Hb. destruct body as [x|e]; simpl; [|assumption].
  apply fadd_at_least_five; auto.
Qed.

Lemma add_budget_at_least_five ui md s :
  at_least_five s -> at_least_five (add_budget ui md s).
Proof.
  intros Hs. unfold add_budget.
  destruct (get_text _); [|assumption]. destruct (get_num _); [|assumption].
  apply add_or_pass_at_least_five; [assumption|].
  intros x. apply closeness_nonneg.
Qed.

Lemma add_square_feet_at_least_five ui md s :
  at_least_five s -> at_least_five (add_square_feet ui md s).
Proof.
  intros Hs. unfold add_square_feet.
  destruct (get_text _); [|assumption]. destruct (get_num _); [|assumption].
  apply add_or_pass_at_least_five; [assumption|].
  intros x. apply closeness_nonneg.
Qed.

Lemma add_count_at_least_five count ui s :
  at_least_five s -> at_least_five (add_count count ui s).
Proof.
  intros Hs. unfold add_count.
  destruct count; [|assumption]. destruct (get_text _); [|assumption].
  destruct (contains _ _); [|assumption].
  apply fadd_at_least_five; [assumption|reflexivity].
Qed.

Lemma half_per_match_nonneg (n : nat) :
  nonneg (fmul (of_int (Z.of_nat n)) (Fin (1 # 2))).
Proof.
  unfold nonneg, of_int. simpl. apply Qle_bool_iff.
  assert (H : 0 <= inject_Z (Z.of_nat n)).
  { change 0 with (inject_Z 0). rewrite <- Zle_Qle. lia. }
  change (inject_Z 0) with 0.
  revert H. generalize (inject_Z (Z.of_nat n)). intros q H. lra.
Qed.

Lemma add_amenities_at_least_five ui md s :
  at_least_five s -> at_least_five (add_amenities ui md s).
Proof.
  intros Hs. unfold add_amenities.
  destruct (Metadata.amenities md) as [[raw|theirs]|]; try assumption.
  destruct (get_seq _); [|assumption].
  apply fadd_at_least_five; [assumption|apply half_per_match_nonneg].
Qed.

(** The two ways out of [score_listing]. *)
Lemma score_listing_other_city ui doc :
  other_city ui (Document.metadata doc) = true ->
  score_listing ui doc = of_int 0.
Proof. unfold score_listing. now intros ->. Qed.

Lemma score_listing_same_city ui doc :
  other_city ui (Document.metadata doc) = false ->
  at_least_five (score_listing ui doc).
Proof.
  unfold score_listing. intros ->.
  apply add_amenities_at_least_five, add_count_at_least_five,
    add_count_at_least_five, add_square_feet_at_least_five,
    add_budget_at_least_five.
  reflexivity.
Qed.

Lemma score_listing_cases ui doc :
  score_listing ui doc = of_int 0 \/ at_least_five (score_listing ui doc).
Proof.
  destruct (other_city ui (Document.metadata doc)) eqn:E.
  - left. now apply score_listing_other_city.
  - right. now apply score_listing_same_city.
Qed.

Lemma score_listing_not_nan ui doc : score_listing ui doc <> NaN.
Proof.
  destruct (score_listing_cases ui doc) as [H|H].
  - rewrite H. discriminate.
  - eapply fle_not_nan_r, H.
Qed.

Lemma scored_not_nan ui listings :
  Forall (fun p : pyfloat * Document.t => fst p <> NaN) (scored ui listings).
Proof.
  unfold scored. apply Forall_forall. intros p Hp.
  apply in_map_iff in Hp. destruct Hp as (doc & <- & _).
  apply score_listing_not_nan.
Qed.

Lemma rerank_listings_unfold listings ui :
  rerank_listings listings ui
  = firstn 3 (sorted_reverse fst (scored ui listings)).
Proof. reflexivity. Qed.

Lemma in_rerank_listings listings ui s doc :
  In (s, doc) (rerank_listings listings ui) ->
  In doc listings /\ s = score_listing ui doc.
Proof.
  rewrite rerank_listings_unfold. intros H.
  apply in_firstn in H.
  apply (Permutation_in _ (sorted_reverse_perm fst _)) in H.
  unfold scored in H. apply in_map_iff in H.
  destruct H as (d & [= <- <-] & Hd). auto.
Qed.

Lemma same_score_separates (s : pyfloat) (x y : pyfloat * Document.t) :
  flt (fst x) (fst y) = true ->
  same_score s (fst x) = true -> same_score s (fst y) = false.
Proof.
  unfold same_score. intros Hlt Hx.
  apply andb_true_iff in Hx. destruct Hx as [Hsx Hxs].
  apply andb_false_iff. right.
  destruct (fle (fst y) s) eqn:E; [|reflexivity].
  pose proof (fle_trans _ _ _ E Hsx) as H.
  rewrite (flt_true_fle _ _ Hlt) in H. discriminate.
Qed.

End ScoreFacts.

(* ================================================================== *)
(** ** The reranker *)

Import Py Utils App Props Tactics PyFacts ScoreFacts.

(** C1, as amended.  When the preference record names a city and the
    candidate's metadata has a non-empty location that differs from it, letter
    case aside, the candidate's score is exactly 0, whatever its price, size,
    room counts and amenities; so is its score in the output of
    [rerank_listings]. *)
Theorem other_city_scores_zero :
  forall (user_inputs : UserInputs.t) (doc : Document.t)
         (city location : string),
    UserInputs.city user_inputs = Some city ->
    city <> EmptyString ->
    Metadata.location (Document.metadata doc) = Some location ->
    location <> EmptyString ->
    lower location <> lower city ->
    score_listing user_inputs doc = Fin 0
    /\ forall listings s,
         In (s, doc) (rerank_listings listings user_inputs) -> s = Fin 0.
Proof.
  intros ui doc city location Hc Hcne Hl Hlne Hdiff.
  assert (H : score_listing ui doc = Fin 0).
  { apply score_listing_other_city. unfold other_city.
    rewrite Hc, Hl. unfold get_text.
    destruct city; [congruence|]. destruct location; [congruence|].
    cbn [str_truthy].
    apply negb_true_iff, String.eqb_neq, Hdiff. }
  split; [exact H|].
  intros listings s Hin. apply in_rerank_listings in Hin.
  destruct Hin as [_ ->]. exact H.
Qed.

Lemma other_city_scores_zero_witness :
  score_listing Examples.berlin_query Examples.munich_1 = Fin 0
  /\ forall listings s,
       In (s, Examples.munich_1)
          (rerank_listings listings Examples.berlin_query) ->
       s = Fin 0.
Proof.
  apply (other_city_scores_zero Examples.berlin_query Examples.munich_1
           "Berlin" "Munich");
    [reflexivity | discriminate | reflexivity | discriminate
    | vm_compute; discriminate].
Defined.

(** C1, as first stated, fails: a candidate whose location is the empty
    string differs from the wanted city, and so does one with no location at
    all, yet both score 5, and more when price and size are close. *)
Lemma empty_location_is_not_zeroed :
  UserInputs.city Examples.berlin_only = Some "Berlin"
  /\ location_differs
       (Metadata.location (Document.metadata Examples.unnamed_place)) "Berlin"
  /\ score_listing Examples.berlin_only Examples.unnamed_place = Fin 5
  /\ score_listing Examples.berlin_only Examples.unnamed_place <> Fin 0
  /\ rerank_listings [Examples.unnamed_place] Examples.berlin_only
     = [(Fin 5, Examples.unnamed_place)]
  /\ location_differs
       (Metadata.location (Document.metadata Examples.no_place)) "Berlin"
  /\ score_listing Examples.berlin_only Examples.no_place = Fin 5.
Proof.
  repeat split; try reflexivity; vm_compute; discriminate.
Qed.

(** C3.  [rerank_listings] returns min(3, number of candidates) scored
    listings, hence at most 3; their scores are in descending order; they are
    candidates with their own scores, the first part of a rearrangement of
    all of them; and for no candidate at all the result is the empty list. *)
Theorem rerank_listings_top3 :
  forall (listings : list Document.t) (user_inputs : UserInputs.t),
    let ranked := rerank_listings listings user_inputs in
    List.length ranked = Nat.min 3 (List.length listings)
    /\ (List.length ranked <= 3)%nat
    /\ descending (map fst ranked)
    /\ (exists rest,
          Permutation (ranked ++ rest) (scored user_inputs listings))
    /\ rerank_listings [] user_inputs = [].
Proof.
  intros listings ui ranked. subst ranked.
  rewrite rerank_listings_unfold.
  repeat split.
  - rewrite length_firstn, sorted_reverse_length.
    unfold scored. now rewrite length_map.
  - apply firstn_le_length.
  - pose proof (sorted_reverse_sorted fst _ (scored_not_nan ui listings))
      as Hs.
    rewrite <- (firstn_skipn 3 (sorted_reverse fst (scored ui listings)))
      in Hs.
    revert Hs. generalize (firstn 3 (sorted_reverse fst (scored ui listings))).
    intros l. generalize (skipn 3 (sorted_reverse fst (scored ui listings))).
    intros r. induction l as [|p l IH]; simpl; intros Hs; [constructor|].
    inversion Hs as [|? ? Hs' Hp]; subst.
    constructor; [exact (IH Hs')|].
    apply Forall_app in Hp. destruct Hp as [Hp _].
    rewrite Forall_map. exact Hp.
  - exists (skipn 3 (sorted_reverse fst (scored ui listings))).
    rewrite firstn_skipn. apply sorted_reverse_perm.
Qed.

Lemma rerank_by_score_listing (listings : list Document.t)
    (ui : UserInputs.t) :
  rerank_listings listings ui = rerank_by (score_listing ui) listings.
Proof. reflexivity. Qed.

(** C4.  The sort is stable, whatever scores the candidates receive (none
    of them NaN, as the scores of the program are).  For every score, the
    candidates of the output with that score are, in the same order, the
    first ones of the input with that score; and when one scored candidate
    comes before another with an identical score in the output, it comes
    before it in the input.  [rerank_listings] is this reranking at the
    scores of [score_listing]. *)
Theorem rerank_listings_stable :
  forall (score : Document.t -> pyfloat) (listings : list Document.t),
    (forall d, In d listings -> score d <> NaN) ->
    let scored := map (fun doc => (score doc, doc)) listings in
    (forall s,
       filter (fun p => same_score s (fst p)) (sorted_reverse fst scored)
       = filter (fun p => same_score s (fst p)) scored)
    /\ (forall s, exists k,
          filter (fun p => same_score s (fst p)) (rerank_by score listings)
          = firstn k (filter (fun p => same_score s (fst p)) scored))
    /\ (forall s1 d1 s2 d2,
          precedes (s1, d1) (s2, d2) (rerank_by score listings) ->
          same_score s1 s2 = true ->
          precedes (s1, d1) (s2, d2) scored)
    /\ (forall user_inputs,
          rerank_listings listings user_inputs
          = rerank_by (score_listing user_inputs) listings).
Proof.
  intros score listings _ scored.
  assert (Hfull : forall s,
    filter (fun p => same_score s (fst p)) (sorted_reverse fst scored)
    = filter (fun p => same_score s (fst p)) scored).
  { intros s. apply filter_sorted_reverse.
    intros x y. apply same_score_separates. }
  split; [exact Hfull|]. split; [|split].
  - intros s. unfold rerank_by. fold scored. rewrite <- Hfull.
    apply filter_firstn_prefix.
  - intros s1 d1 s2 d2 Hprec Hsame.
    unfold rerank_by in Hprec. fold scored in Hprec.
    apply precedes_firstn in Hprec.
    apply (of_filter_precedes (fun p => same_score s1 (fst p))).
    rewrite <- Hfull. apply precedes_filter; simpl; try assumption.
    unfold same_score. rewrite andb_diag.
    apply fle_refl. apply andb_true_iff in Hsame.
    eapply fle_not_nan_l, Hsame.
  - intros ui. apply rerank_by_score_listing.
Qed.

Lemma rerank_listings_stable_witness :
  precedes (Fin 0, Examples.munich_2) (Fin 0, Examples.munich_3)
    (map (fun doc => (score_listing Examples.berlin_query doc, doc))
       [Examples.munich_2; Examples.berlin_a; Examples.munich_3]).
Proof.
  assert (Hscores : forall d,
            In d [Examples.munich_2; Examples.berlin_a; Examples.munich_3] ->
            score_listing Examples.berlin_query d <> NaN).
  { intros d [<-|[<-|[<-|[]]]]; vm_compute; discriminate. }
  apply (proj1 (proj2 (proj2 (rerank_listings_stable
           (score_listing Examples.berlin_query)
           [Examples.munich_2; Examples.berlin_a; Examples.munich_3]
           Hscores))));
    [|reflexivity].
  exists [(score_listing Examples.berlin_query Examples.berlin_a,
           Examples.berlin_a)], [], [].
  reflexivity.
Defined.

(** C10.  Every score in the output of [rerank_listings] is exactly 0 or at
    least 5.  A candidate with no location, or an empty one, is not zeroed by
    the city filter even when a city is wanted: its score is at least 5.  It
    can thereby come before a candidate of the same query whose location is
    another city. *)
Theorem score_zero_or_at_least_five :
  forall (listings : list Document.t) (user_inputs : UserInputs.t)
         (s : pyfloat) (doc : Document.t),
    In (s, doc) (rerank_listings listings user_inputs) ->
    (s = Fin 0 \/ at_least_five s)
    /\ (get_text (Metadata.location (Document.metadata doc)) = None ->
        at_least_five s)
    /\ rerank_listings [Examples.munich_1; Examples.no_place]
         Examples.berlin_only
       = [(Fin 5, Examples.no_place); (Fin 0, Examples.munich_1)].
Proof.
  intros listings ui s doc Hin. apply in_rerank_listings in Hin.
  destruct Hin as [_ ->]. repeat split.
  - apply score_listing_cases.
  - intros Hloc. apply score_listing_same_city. unfold other_city.
    rewrite Hloc. now destruct (get_text (UserInputs.city ui)).
Qed.

Lemma score_zero_or_at_least_five_witness :
  (Fin 5 = Fin 0 \/ at_least_five (Fin 5))
  /\ (get_text (Metadata.location (Document.metadata Examples.no_place))
      = None -> at_least_five (Fin 5))
  /\ rerank_listings [Examples.munich_1; Examples.no_place]
       Examples.berlin_only
     = [(Fin 5, Examples.no_place); (Fin 0, Examples.munich_1)].
Proof.
  apply (score_zero_or_at_least_five
           [Examples.munich_1; Examples.no_place] Examples.berlin_only
           (Fin 5) Examples.no_place).
  left. reflexivity.
Defined.

(** The exact arithmetic is one float arithmetic among others. *)
Lemma score_listing_instance (ui : UserInputs.t) (doc : Document.t) :
  score_listing ui doc = score_listing_with fadd closeness ui doc.
Proof. reflexivity. Qed.

(** The amenities step is the last one, and no other step reads the
    amenities of the candidate. *)
Lemma score_listing_amenities_last
    (plus : pyfloat -> pyfloat -> pyfloat)
    (proximity : Z -> string -> pynum -> result pyfloat)
    (ui : UserInputs.t) (doc : Document.t) :
  other_city ui (Document.metadata doc) = false ->
  score_listing_with plus proximity ui doc
  = add_amenities_with plus ui (Document.metadata doc)
      (score_listing_with plus proximity ui (without_amenities doc)).
Proof.
  destruct doc as [text [t l p sf nb nba am pc nd]].
  unfold score_listing_with, without_amenities, other_city. simpl.
  now intros ->.
Qed.

Lemma matched_spec (wanted : pyseq) (theirs : list string) (a : string) :
  In a (matched wanted theirs) <-> In a (items wanted) /\ In a theirs.
Proof.
  unfold matched, intersection. rewrite set_inter_iff.
  assert (H : forall l, set_In a (set_of l) <-> In a l).
  { induction l as [|x l IH]; simpl; [tauto|].
    rewrite set_add_iff, IH. split; intros [?|?]; auto. }
  now rewrite !H.
Qed.

Lemma set_of_nodup (l : list string) : NoDup (set_of l).
Proof.
  induction l as [|x l IH]; simpl; [constructor|].
  now apply set_add_nodup.
Qed.

Lemma matched_nodup (wanted : pyseq) (theirs : list string) :
  NoDup (matched wanted theirs).
Proof. apply set_inter_nodup; apply set_of_nodup. Qed.

(** C5.  Whatever the float arithmetic, for a candidate that passes the
    city filter and whose amenities are a list, the score is the score it
    would have without amenities with 0.5 added for each amenity of the
    intersection of the wanted amenities and its own (a set: no amenity is
    counted twice); when its amenities are one raw string nothing is added.
    With its amenities gym and pool, and pool and garden wanted, exactly 0.5
    is added: a listing that scores 5 without its amenities scores 5.5.
    That score is the one the reranking reports for the candidate. *)
Theorem amenity_overlap_scoring :
  forall (plus : pyfloat -> pyfloat -> pyfloat)
         (proximity : Z -> string -> pynum -> result pyfloat)
         (user_inputs : UserInputs.t) (doc : Document.t),
    other_city user_inputs (Document.metadata doc) = false ->
    let score := score_listing_with plus proximity user_inputs in
    (forall theirs wanted,
       Metadata.amenities (Document.metadata doc) = Some (Lst theirs) ->
       UserInputs.amenities user_inputs = Some (Lst wanted) ->
       wanted <> [] ->
       score doc
       = plus (score (without_amenities doc))
              (half_each (List.length (matched (Lst wanted) theirs)))
       /\ NoDup (matched (Lst wanted) theirs)
       /\ (forall a, In a (matched (Lst wanted) theirs)
                     <-> In a wanted /\ In a theirs))
    /\ (forall raw,
          Metadata.amenities (Document.metadata doc) = Some (Str raw) ->
          score doc = score (without_amenities doc))
    /\ (Metadata.amenities (Document.metadata doc)
          = Some (Lst ["gym"; "pool"]) ->
        UserInputs.amenities user_inputs = Some (Lst ["pool"; "garden"]) ->
        score doc = plus (score (without_amenities doc)) (Fin (1 # 2)))
    /\ (forall listings s,
          In (s, doc) (rerank_by score listings) -> s = score doc)
    /\ (forall ui d,
          score_listing ui d = score_listing_with fadd closeness ui d)
    /\ score_listing Examples.pool_and_garden
         (without_amenities Examples.berlin_a)
       = Fin 5
    /\ score_listing Examples.pool_and_garden Examples.berlin_a
       = Fin (11 # 2).
Proof.
  intros plus proximity ui doc Hcity score.
  assert (Hout : forall listings s,
            In (s, doc) (rerank_by score listings) -> s = score doc).
  { intros listings s Hin. unfold rerank_by in Hin.
    apply in_firstn in Hin.
    apply (Permutation_in _ (sorted_reverse_perm fst _)) in Hin.
    apply in_map_iff in Hin. now destruct Hin as (d & [= <- <-] & _). }
  revert Hout. subst score.
  rewrite (score_listing_amenities_last plus proximity ui doc Hcity).
  generalize (score_listing_with plus proximity ui (without_amenities doc)).
  intros base Hout. unfold add_amenities_with.
  split; [|split; [|split; [|split; [exact Hout|]]]].
  - intros theirs wanted -> -> Hwanted. split; [|split].
    + destruct wanted as [|w ws]; [congruence|reflexivity].
    + apply matched_nodup.
    + intros a. apply (matched_spec (Lst wanted)).
  - intros raw ->. reflexivity.
  - intros -> ->. reflexivity.
  - split; [intros; apply score_listing_instance|]. split; reflexivity.
Qed.

Lemma amenity_overlap_scoring_witness :
  score_listing_with fadd closeness Examples.pool_and_garden
    Examples.berlin_a
  = fadd (score_listing_with fadd closeness Examples.pool_and_garden
            (without_amenities Examples.berlin_a))
         (Fin (1 # 2)).
Proof.
  apply (amenity_overlap_scoring fadd closeness Examples.pool_and_garden
           Examples.berlin_a);
    reflexivity.
Defined.

(** *** The end-to-end scenario *)

Lemma num_truthy_float (n : pynum) :
  num_truthy n = float_truthy (to_float n).
Proof.
  destruct n as [z|f]; [|reflexivity].
  unfold num_truthy, to_float, of_int, float_truthy, Qis_zero, Qeq_bool.
  simpl. now rewrite Z.mul_1_r.
Qed.

(** The budget and size steps see a number as [float] shows it. *)
Lemma add_budget_reads (ui : UserInputs.t) (md md' : Metadata.t)
    (s : pyfloat) :
  option_map to_float (Metadata.price md)
  = option_map to_float (Metadata.price md') ->
  add_budget ui md s = add_budget ui md' s.
Proof.
  unfold add_budget, get_num, closeness.
  destruct (get_text _); [|reflexivity].
  destruct (Metadata.price md) as [n|], (Metadata.price md') as [n'|];
    simpl; intros [=]; [|reflexivity].
  rewrite !num_truthy_float, H0.
  destruct (float_truthy (to_float n')); [|reflexivity].
  now rewrite H0.
Qed.

Lemma add_square_feet_reads (ui : UserInputs.t) (md md' : Metadata.t)
    (s : pyfloat) :
  option_map to_float (Metadata.square_feet md)
  = option_map to_float (Metadata.square_feet md') ->
  add_square_feet ui md s = add_square_feet ui md' s.
Proof.
  unfold add_square_feet, get_num, closeness.
  destruct (get_text _); [|reflexivity].
  destruct (Metadata.square_feet md) as [n|],
    (Metadata.square_feet md') as [n'|];
    simpl; intros [=]; [|reflexivity].
  rewrite !num_truthy_float, H0.
  destruct (float_truthy (to_float n')); [|reflexivity].
  now rewrite H0.
Qed.

Lemma add_count_no_features (ui : UserInputs.t) (count : option Z)
    (s : pyfloat) :
  UserInputs.features ui = None -> add_count count ui s = s.
Proof. unfold add_count. intros ->. now destruct count. Qed.

Lemma add_amenities_none_wanted (ui : UserInputs.t) (md : Metadata.t)
    (s : pyfloat) :
  UserInputs.amenities ui = None -> add_amenities ui md s = s.
Proof.
  unfold add_amenities. intros ->.
  now destruct (Metadata.amenities md) as [[?|?]|].
Qed.

(** Under the query of the scenario nothing but location, price and size
    of a candidate is read. *)
Lemma scenario_score (doc : Document.t) (city : string) (price size : Z) :
  Metadata.location (Document.metadata doc) = Some city ->
  priced price doc -> sized size doc ->
  score_listing Examples.berlin_query doc
  = score_listing Examples.berlin_query
      (Examples.listing (Some city) price size None).
Proof.
  unfold priced, sized. intros Hl Hp Hs. unfold score_listing.
  assert (Hc : other_city Examples.berlin_query (Document.metadata doc)
               = other_city Examples.berlin_query
                   (Document.metadata
                      (Examples.listing (Some city) price size None))).
  { unfold other_city. now rewrite Hl. }
  rewrite Hc. clear Hc.
  destruct (other_city Examples.berlin_query
              (Document.metadata
                 (Examples.listing (Some city) price size None)));
    [reflexivity|].
  rewrite !add_amenities_none_wanted, !add_count_no_features
    by reflexivity.
  rewrite (add_budget_reads _ (Document.metadata doc)
             (Document.metadata
                (Examples.listing (Some city) price size None)))
    by exact Hp.
  now rewrite (add_square_feet_reads _ (Document.metadata doc)
                 (Document.metadata
                    (Examples.listing (Some city) price size None)))
    by exact Hs.
Qed.

Lemma scenario_score_a (doc : Document.t) :
  located "Berlin" doc -> priced 440000 doc -> sized 1180 doc ->
  score_listing Examples.berlin_query doc = Examples.score_a.
Proof.
  intros Hl Hp Hs. rewrite (scenario_score doc _ _ _ Hl Hp Hs).
  vm_compute. reflexivity.
Qed.

Lemma scenario_score_b (doc : Document.t) :
  located "Berlin" doc -> priced 600000 doc -> sized 2000 doc ->
  score_listing Examples.berlin_query doc = Examples.score_b.
Proof.
  intros Hl Hp Hs. rewrite (scenario_score doc _ _ _ Hl Hp Hs).
  vm_compute. reflexivity.
Qed.

Lemma scenario_score_munich (doc : Document.t) :
  located "Munich" doc -> score_listing Examples.berlin_query doc = Fin 0.
Proof.
  intros Hl. apply score_listing_other_city.
  unfold other_city. now rewrite Hl.
Qed.

(** C9.  With the preferences budget 450000, city Berlin, square feet 1200
    and five candidates in any order, of which one is in Berlin at 440000 and
    1180 square feet, one in Berlin at 600000 and 2000 square feet, and three
    are in Munich, the result is: the first Berlin listing with the strictly
    highest score (1793/180), then the other Berlin listing (score 9), then
    exactly one Munich listing with score 0.  No Munich listing comes before a
    Berlin listing. *)
Theorem berlin_scenario :
  forall (listings : list Document.t) (a b m1 m2 m3 : Document.t),
    Permutation listings [a; b; m1; m2; m3] ->
    located "Berlin" a -> priced 440000 a -> sized 1180 a ->
    located "Berlin" b -> priced 600000 b -> sized 2000 b ->
    located "Munich" m1 -> located "Munich" m2 -> located "Munich" m3 ->
    exists m,
      rerank_listings listings Examples.berlin_query
      = [(Examples.score_a, a); (Examples.score_b, b); (Fin 0, m)]
      /\ In m [m1; m2; m3]
      /\ feq Examples.score_a (Fin (1793 # 180))
      /\ feq Examples.score_b (Fin 9)
      /\ flt Examples.score_b Examples.score_a = true
      /\ flt (Fin 0) Examples.score_b = true.
Proof.
  intros listings a b m1 m2 m3 Hperm Hal Hap Has Hbl Hbp Hbs Hm1 Hm2 Hm3.
  pose proof (scenario_score_a a Hal Hap Has) as Sa.
  pose proof (scenario_score_b b Hbl Hbp Hbs) as Sb.
  assert (Sm : forall m, In m [m1; m2; m3] ->
                         score_listing Examples.berlin_query m = Fin 0).
  { intros m [<-|[<-|[<-|[]]]]; now apply scenario_score_munich. }
  (* the first Berlin listing *)
  assert (Hin : In a listings).
  { apply (Permutation_in _ (Permutation_sym Hperm)). now left. }
  apply in_split in Hin. destruct Hin as (l1 & l2 & ->).
  apply Permutation_sym, Permutation_cons_app_inv in Hperm.
  assert (Hrest : forall y, In y (l1 ++ l2) ->
            score_listing Examples.berlin_query y = Examples.score_b
            \/ score_listing Examples.berlin_query y = Fin 0).
  { intros y Hy. apply (Permutation_in _ (Permutation_sym Hperm)) in Hy.
    destruct Hy as [<-|Hy]; [now left|right; now apply Sm]. }
  (* the other Berlin listing *)
  assert (Hin : In b (l1 ++ l2)).
  { apply (Permutation_in _ Hperm). now left. }
  apply in_split in Hin. destruct Hin as (l3 & l4 & E).
  rewrite E in Hperm.
  apply Permutation_cons_app_inv in Hperm.
  assert (Hmunich : forall y, In y (l3 ++ l4) ->
                              score_listing Examples.berlin_query y = Fin 0).
  { intros y Hy. apply Sm.
    now apply (Permutation_in _ (Permutation_sym Hperm)). }
  (* three candidates are left *)
  assert (Hlen : List.length (l3 ++ l4) = 3%nat).
  { now rewrite <- (Permutation_length Hperm). }
  destruct (l3 ++ l4) as [|x [|y [|z [|? ?]]]] eqn:E34; try discriminate.
  exists x. split; [|split].
  - rewrite rerank_listings_unfold. unfold scored.
    rewrite map_app. simpl map.
    rewrite sorted_reverse_top.
    + rewrite <- map_app, E, map_app. simpl map.
      rewrite sorted_reverse_top.
      * rewrite <- map_app, E34.
        rewrite sorted_reverse_ties.
        -- simpl. rewrite Sa, Sb, (Hmunich x) by (now left).
           reflexivity.
        -- intros u v Hu Hv. apply in_map_iff in Hu, Hv.
           destruct Hu as (u' & <- & Hu), Hv as (v' & <- & Hv). simpl.
           now rewrite (Hmunich u'), (Hmunich v').
      * apply Forall_forall. intros u Hu. apply in_map_iff in Hu.
        destruct Hu as (u' & <- & Hu). simpl.
        rewrite Sb, (Hmunich u'); [reflexivity|].
        rewrite <- E34. apply in_or_app. now left.
      * apply Forall_forall. intros u Hu. apply in_map_iff in Hu.
        destruct Hu as (u' & <- & Hu). simpl.
        rewrite Sb, (Hmunich u'); [reflexivity|].
        rewrite <- E34. apply in_or_app. now right.
    + apply Forall_forall. intros u Hu. apply in_map_iff in Hu.
      destruct Hu as (u' & <- & Hu). simpl. rewrite Sa.
      destruct (Hrest u') as [->| ->]; try reflexivity.
      apply in_or_app. now left.
    + apply Forall_forall. intros u Hu. apply in_map_iff in Hu.
      destruct Hu as (u' & <- & Hu). simpl. rewrite Sa.
      destruct (Hrest u') as [->| ->]; try reflexivity.
      apply in_or_app. now right.
  - apply (Permutation_in _ (Permutation_sym Hperm)). now left.
  - repeat split; vm_compute; reflexivity.
Qed.

Lemma berlin_scenario_witness :
  exists m,
    rerank_listings
      [Examples.munich_1; Examples.berlin_b; Examples.munich_2;
       Examples.berlin_a; Examples.munich_3]
      Examples.berlin_query
    = [(Examples.score_a, Examples.berlin_a);
       (Examples.score_b, Examples.berlin_b); (Fin 0, m)]
    /\ In m [Examples.munich_1; Examples.munich_2; Examples.munich_3]
    /\ feq Examples.score_a (Fin (1793 # 180))
    /\ feq Examples.score_b (Fin 9)
    /\ flt Examples.score_b Examples.score_a = true
    /\ flt (Fin 0) Examples.score_b = true.
Proof.
  apply (berlin_scenario
           [Examples.munich_1; Examples.berlin_b; Examples.munich_2;
            Examples.berlin_a; Examples.munich_3]
           Examples.berlin_a Examples.berlin_b
           Examples.munich_1 Examples.munich_2 Examples.munich_3);
    try reflexivity.
  apply Permutation_sym.
  apply (Permutation_cons_app [Examples.munich_1; Examples.berlin_b;
                               Examples.munich_2] [Examples.munich_3]).
  simpl.
  apply (Permutation_cons_app [Examples.munich_1] [Examples.munich_2;
                                                   Examples.munich_3]).
  reflexivity.
Defined.

(* ================================================================== *)
(** ** The numeric helpers *)

(** [safe_float] returns in every case: the float read from the digits and
    dots of [str(val)], or else the default, with one warning. *)
Lemma safe_float_returns (float_repr : pyfloat -> string)
    (val dflt : pyval) :
  safe_float float_repr val dflt
  = match float_of_string (keep_digits_and_dots (str float_repr val)) with
    | Some f => (Ok (VNum (PFloat f)), [])
    | None => (Ok dflt, [WarnParseFloat val dflt ValueError])
    end.
Proof.
  unfold safe_float, float_str.
  now destruct (float_of_string _).
Qed.

Lemma keep_digits_and_dots_spec (s : string) (c : ascii) :
  In c (list_ascii_of_string (keep_digits_and_dots s))
  <-> In c (list_ascii_of_string s)
      /\ (is_digit c = true \/ c = "."%char).
Proof.
  induction s as [|a s IH]; simpl; [tauto|].
  destruct (is_digit a || Ascii.eqb a ".")%bool eqn:E; simpl; rewrite IH.
  - apply orb_true_iff in E. rewrite Ascii.eqb_eq in E.
    split; [intros [->|[? ?]]; auto | intros [[->|?] ?]; auto].
  - apply orb_false_iff in E. destruct E as [E1 E2].
    apply Ascii.eqb_neq in E2.
    split; [intros [? ?]; auto | intros [[->|?] [?|?]]; auto; congruence].
Qed.

(** [safe_int] absorbs a ValueError or a TypeError of the conversion. *)
Lemma safe_int_returns_default (val dflt : pyval) :
  int val = Raise ValueError \/ int val = Raise TypeError ->
  safe_int val dflt = (Ok dflt, [WarnParseInt val dflt]).
Proof. unfold safe_int. now intros [-> | ->]. Qed.

Lemma safe_int_returns_int (val dflt : pyval) (z : Z) :
  int val = Ok z -> safe_int val dflt = (Ok (VNum (PInt z)), []).
Proof. unfold safe_int. now intros ->. Qed.

(** C6.  [safe_float] never raises, but [safe_int] does: called with the
    float infinity, whatever the default, the conversion raises an
    OverflowError, which is neither a ValueError nor a TypeError; it leaves
    [safe_int], and no warning is logged. *)
Theorem safe_int_raises_on_infinity :
  forall (dflt : pyval),
    safe_int (VNum (PFloat (Inf false))) dflt = (Raise OverflowError, [])
    /\ safe_int (VNum (PFloat (Inf true))) dflt = (Raise OverflowError, []).
Proof. intros dflt. split; reflexivity. Qed.

(** *** The random default *)

Lemma randint_in_range (a b r : Z) :
  (a <= b)%Z -> (a <= randint a b r <= b)%Z.
Proof.
  intros H. unfold randint.
  pose proof (Z.mod_pos_bound r (b - a + 1)). lia.
Qed.

Lemma randint_reaches (a b N : Z) :
  (a <= N <= b)%Z -> randint a b (N - a) = N.
Proof. intros H. unfold randint. rewrite Z.mod_small; lia. Qed.

Lemma count_one (j m s : nat) :
  List.length (filter (fun i => (i =? j)%nat) (seq s m))
  = if ((s <=? j) && (j <? s + m))%nat then 1%nat else 0%nat.
Proof.
  revert s. induction m as [|m IH]; intros s.
  - simpl. destruct (s <=? j)%nat eqn:A; [|reflexivity].
    destruct (j <? s + 0)%nat eqn:B; [|reflexivity].
    apply Nat.leb_le in A. apply Nat.ltb_lt in B. lia.
  - cbn [seq filter]. destruct (s =? j)%nat eqn:E.
    + apply Nat.eqb_eq in E. subst s. cbn [List.length]. rewrite IH.
      replace (S j <=? j)%nat with false
        by (symmetry; apply Nat.leb_gt; lia).
      replace (j <=? j)%nat with true by (symmetry; apply Nat.leb_le; lia).
      replace (j <? j + S m)%nat with true
        by (symmetry; apply Nat.ltb_lt; lia).
      reflexivity.
    + apply Nat.eqb_neq in E. rewrite IH.
      destruct (S s <=? j)%nat eqn:A, (s <=? j)%nat eqn:A';
        destruct (j <? S s + m)%nat eqn:B, (j <? s + S m)%nat eqn:B';
        try reflexivity;
        repeat match goal with
               | H : (_ <=? _)%nat = true |- _ => apply Nat.leb_le in H
               | H : (_ <=? _)%nat = false |- _ => apply Nat.leb_gt in H
               | H : (_ <? _)%nat = true |- _ => apply Nat.ltb_lt in H
               | H : (_ <? _)%nat = false |- _ => apply Nat.ltb_ge in H
               end; lia.
Qed.

Lemma count_block (n j c m s : nat) :
  (s + m <= n)%nat ->
  List.length (filter (fun r => (r mod n =? j)%nat) (seq (c * n + s) m))
  = List.length (filter (fun i => (i =? j)%nat) (seq s m)).
Proof.
  revert s. induction m as [|m IH]; intros s H; [reflexivity|].
  cbn [seq filter].
  replace ((c * n + s) mod n)%nat with s.
  - replace (S (c * n + s)) with (c * n + S s)%nat by lia.
    destruct (s =? j)%nat; cbn [List.length]; rewrite IH by lia;
      reflexivity.
  - rewrite Nat.add_comm, Nat.Div0.mod_add. symmetry.
    apply Nat.mod_small. lia.
Qed.

(** In [k] whole periods of the generator's outputs each remainder occurs
    [k] times. *)
Lemma count_mod (n j k : nat) :
  (j < n)%nat ->
  List.length (filter (fun r => (r mod n =? j)%nat) (seq 0 (k * n))) = k.
Proof.
  intros H. induction k as [|k IH]; [reflexivity|].
  replace (S k * n)%nat with (k * n + n)%nat by lia.
  rewrite seq_app, filter_app, length_app, IH.
  replace (0 + k * n)%nat with (k * n + 0)%nat by lia.
  rewrite count_block by lia. rewrite count_one.
  replace (j <? 0 + n)%nat with true by (symmetry; apply Nat.ltb_lt; lia).
  simpl. lia.
Qed.

Lemma how_many_randint (a b N : Z) (periods : nat) :
  (a <= N <= b)%Z ->
  how_many (fun r => (randint a b r =? N)%Z)
           (periods * Z.to_nat (b - a + 1))
  = periods.
Proof.
  intros H. unfold how_many.
  rewrite (filter_ext _
             (fun r => (r mod Z.to_nat (b - a + 1)
                        =? Z.to_nat (N - a))%nat)).
  - apply count_mod. lia.
  - intros r. unfold randint.
    assert (E : (Z.of_nat r mod (b - a + 1))%Z
                = Z.of_nat (r mod Z.to_nat (b - a + 1))).
    { rewrite Nat2Z.inj_mod, Z2Nat.id by lia. reflexivity. }
    rewrite E.
    destruct (Z.eqb_spec (a + Z.of_nat (r mod Z.to_nat (b - a + 1))) N),
             (Nat.eqb_spec (r mod Z.to_nat (b - a + 1)) (Z.to_nat (N - a)));
      try reflexivity; lia.
Qed.

(** C7.  When the conversion fails, [parse_price] returns what
    [random.randint(100000, 900000)] gave, so an integer of that range, and
    logs one warning.  Every integer of the range is returned for some
    output of the generator, each for as many outputs as any other in a
    whole number of periods, so that the default is as evenly distributed as
    the generator's output; two outputs give two different results for the
    same input. *)
Theorem parse_price_default_in_range :
  forall (float_repr : pyfloat -> string) (r : Z) (val : pyval),
    is_ascii (str float_repr val) = true ->
    unparsable float_repr val ->
    let price := randint 100000 900000 r in
    parse_price float_repr r val
    = (Ok (VNum (PInt price)),
       [WarnParseFloat val (VNum (PInt price)) ValueError])
    /\ (100000 <= price <= 900000)%Z
    /\ (forall N,
          (100000 <= N <= 900000)%Z ->
          exists r',
            parse_price float_repr r' val
            = (Ok (VNum (PInt N)),
               [WarnParseFloat val (VNum (PInt N)) ValueError]))
    /\ (forall (periods : nat) (N : Z),
          (100000 <= N <= 900000)%Z ->
          how_many (fun r' => returns_int (parse_price float_repr r' val) N)
                   (periods * Z.to_nat 800001)
          = periods)
    /\ exists r1 r2,
         fst (parse_price float_repr r1 val)
         <> fst (parse_price float_repr r2 val).
Proof.
  intros float_repr r val _ Hval price. subst price.
  assert (Hp : forall r',
            parse_price float_repr r' val
            = (Ok (VNum (PInt (randint 100000 900000 r'))),
               [WarnParseFloat val (VNum (PInt (randint 100000 900000 r')))
                  ValueError])).
  { intros r'. unfold parse_price. rewrite safe_float_returns.
    unfold unparsable in Hval. now rewrite Hval. }
  split; [apply Hp|]. split; [apply randint_in_range; lia|].
  split; [|split].
  - intros N HN. exists (N - 100000)%Z.
    now rewrite Hp, randint_reaches.
  - intros periods N HN.
    change 800001%Z with (900000 - 100000 + 1)%Z.
    rewrite <- (how_many_randint 100000 900000 N periods HN) at 2.
    unfold how_many. f_equal. apply filter_ext. intros r'.
    unfold returns_int. now rewrite Hp.
  - exists 0%Z, 1%Z. rewrite !Hp. simpl. discriminate.
Qed.

Lemma parse_price_default_in_range_witness :
  parse_price Examples.no_repr 23456 (VStr "n/a")
  = (Ok (VNum (PInt 123456)),
     [WarnParseFloat (VStr "n/a") (VNum (PInt 123456)) ValueError])
  /\ (100000 <= 123456 <= 900000)%Z.
Proof.
  destruct (parse_price_default_in_range Examples.no_repr 23456
              (VStr "n/a") eq_refl eq_refl)
    as (Hreturned & Hrange & _).
  split; [exact Hreturned | exact Hrange].
Defined.

(* ================================================================== *)
(** ** The fallback description *)

(** Whenever the model call raises, the exception is caught, one warning is
    logged and the description assembled beforehand is returned as it is. *)
Lemma augment_recovers (float_repr : pyfloat -> string)
    (listing : Metadata.t) (preferences raw : string)
    (llm : string -> result string) :
  raw_augmented_description float_repr listing preferences = (Ok raw, []) ->
  (forall prompt, exists e, llm prompt = Raise e) ->
  exists e,
    augment_listing_with_preferences float_repr listing preferences llm
    = (Ok raw, [WarnLLMFailed e]).
Proof.
  intros Hraw Hllm. unfold augment_listing_with_preferences.
  rewrite Hraw. simpl.
  match goal with |- context [llm ?p] => destruct (Hllm p) as [e He] end.
  exists e. now rewrite He.
Qed.

Lemma raw_augmented_description_is_join (float_repr : pyfloat -> string)
    (listing : Metadata.t) (preferences : string) :
  fst (raw_augmented_description float_repr listing preferences)
  = Raise TypeError
  \/ fst (raw_augmented_description float_repr listing preferences)
     = Raise ValueError
  \/ fst (raw_augmented_description float_repr listing preferences)
     = Raise OverflowError
  \/ exists separator each,
       Metadata.amenities listing = Some each
       /\ raw_augmented_description float_repr listing preferences
          = (Ok (join separator
                   (map (fun amenity => ("- " ++ amenity ++ nl)%string)
                        (items each))), []).
Proof.
  unfold raw_augmented_description.
  destruct (int_of_field (Metadata.price listing)) as [z|e] eqn:E; simpl.
  - destruct (Metadata.amenities listing) as [each|]; simpl.
    + right. right. right. eexists. exists each. split; reflexivity.
    + now left.
  - unfold int_of_field, int in E.
    destruct (Metadata.price listing) as [[y|[q|n|]]|]; simpl in E;
      inversion E; auto.
Qed.

(** C2.  The fallback description loses the facts of the listing when the
    listing has fewer than two amenities: the text that states bedrooms,
    location and price is the separator of a [join] over the amenity lines.
    With no amenity the description returned after a failed model call is the
    empty string; with one amenity it is that amenity's line alone, in which
    neither the location nor the price nor the bedroom count occurs.  The
    failure itself is caught and logged. *)
Theorem fallback_description_loses_facts :
  forall (float_repr : pyfloat -> string) (preferences : string),
    augment_listing_with_preferences float_repr Examples.bare_listing
      preferences Examples.failing_llm
    = (Ok EmptyString, [WarnLLMFailed (LibraryError "Timeout")])
    /\ augment_listing_with_preferences float_repr
         Examples.one_amenity_listing preferences Examples.failing_llm
       = (Ok ("- Balcony" ++ nl)%string,
          [WarnLLMFailed (LibraryError "Timeout")])
    /\ contains ("- Balcony" ++ nl)%string "Berlin" = false
    /\ contains ("- Balcony" ++ nl)%string "440" = false
    /\ contains ("- Balcony" ++ nl)%string "3" = false.
Proof.
  intros float_repr preferences. repeat split.
Qed.

(* ================================================================== *)
(** ** The query text *)

(** What one step of [parse_preferences] appends, for a text field and for
    a sequence field. *)
Lemma append_if_text (parts : list string) (field : option string)
    (part : string -> string) :
  append_if parts (get_text field) part
  = parts ++ match field with
             | Some (String c s) => [part (String c s)]
             | _ => []
             end.
Proof.
  destruct field as [[|c s]|]; simpl; now rewrite ?app_nil_r.
Qed.

Lemma append_if_seq (parts : list string) (field : option pyseq)
    (part : pyseq -> string) :
  append_if parts (get_seq field) part
  = parts ++ match field with
             | Some (Str (String c s)) => [part (Str (String c s))]
             | Some (Lst (x :: l)) => [part (Lst (x :: l))]
             | _ => []
             end.
Proof.
  destruct field as [[[|c s]|[|x l]]|]; simpl; now rewrite ?app_nil_r.
Qed.

Lemma map_filter_flat_map {A B} (g : A -> B) (p : A -> bool)
    (l : list A) :
  map g (filter p l) = flat_map (fun x => if p x then [g x] else []) l.
Proof.
  induction l as [|x l IH]; [reflexivity|].
  simpl. destruct (p x); simpl; now rewrite IH.
Qed.

(** The text is the program's join of one sentence per field that is
    present and not empty. *)
Lemma parse_preferences_sentences (d : UserInputs.t) :
  parse_preferences d
  = join nl (map (fun f => template f (rendered (lookup d f)))
                 (filter (present d) field_order)).
Proof.
  unfold parse_preferences.
  rewrite !append_if_seq, !append_if_text, map_filter_flat_map. f_equal.
  destruct d as [sf c b f a n].
  unfold field_order, present, lookup. simpl.
  rewrite <- !app_assoc, app_nil_r.
  f_equal; [now text_cases sf|].
  f_equal; [now text_cases c|].
  f_equal; [now text_cases b|].
  f_equal; [now text_cases f|].
  f_equal; [now seq_cases a|].
  now seq_cases n.
Qed.





(** The program spells a text out where the document has a sequence: the
    search form delivers a text for the amenities, and [join] goes through
    it letter by letter. *)
Lemma raw_text_is_spelled_out :
  parse_preferences
    (UserInputs.mk None None None None (Some (Str "pool")) None)
  = "I want amenities like: p, o, o, l.".
Proof. reflexivity. Qed.



(* ================================================================== *)
(** ** More on the reranker *)

Import MoreProps.

Lemma sorted_reverse_of_sorted {A} (key : A -> pyfloat) (l : list A) :
  StronglySorted (key_desc key) l -> sorted_reverse key l = l.
Proof.
  induction 1 as [|x l Hs IH Hx]; [reflexivity|].
  simpl. rewrite IH. destruct l as [|y l]; [reflexivity|].
  simpl. inversion Hx as [|? ? Hy _]; subst. unfold key_desc in Hy.
  destruct (flt (key x) (key y)) eqn:E; [|reflexivity].
  apply flt_true_fle in E. congruence.
Qed.

Lemma ranked_sorted (listings : list Document.t) (ui : UserInputs.t) :
  StronglySorted (key_desc fst)
    (sorted_reverse fst (scored ui listings)).
Proof. apply sorted_reverse_sorted, scored_not_nan. Qed.

Lemma sorted_app_inv {A} (R : A -> A -> Prop) (l r : list A) :
  StronglySorted R (l ++ r) ->
  StronglySorted R l
  /\ forall x y, In x l -> In y r -> R x y.
Proof.
  induction l as [|a l IH]; simpl; intros H.
  - split; [constructor|]. intros x y [].
  - inversion H as [|? ? Hs Ha]; subst. destruct (IH Hs) as [Hl Hlr].
    apply Forall_app in Ha. destruct Ha as [Hal Har].
    split; [now constructor|].
    intros x y [<-|Hx] Hy; [|now apply Hlr].
    now apply (proj1 (Forall_forall _ _) Har).
Qed.

(** X1.  The listings returned are the best ones: whatever candidate is
    left out, its score is not above the score of any listing returned; and
    with three candidates or fewer none is left out. *)
Theorem rerank_listings_keeps_the_best :
  forall (listings : list Document.t) (user_inputs : UserInputs.t),
  exists left_out,
    Permutation (rerank_listings listings user_inputs ++ left_out)
                (scored user_inputs listings)
    /\ (forall kept other,
          In kept (rerank_listings listings user_inputs) ->
          In other left_out ->
          fle (fst other) (fst kept) = true)
    /\ ((List.length listings <= 3)%nat -> left_out = []).
Proof.
  intros listings ui.
  exists (skipn 3 (sorted_reverse fst (scored ui listings))).
  rewrite rerank_listings_unfold. split; [|split].
  - rewrite firstn_skipn. apply sorted_reverse_perm.
  - pose proof (ranked_sorted listings ui) as Hs.
    rewrite <- (firstn_skipn 3 (sorted_reverse fst (scored ui listings)))
      in Hs.
    apply sorted_app_inv in Hs. destruct Hs as [_ Hs].
    intros kept other Hk Ho. exact (Hs kept other Hk Ho).
  - intros Hlen. apply skipn_all2.
    rewrite sorted_reverse_length. unfold scored. now rewrite length_map.
Qed.

Lemma rerank_listings_keeps_the_best_witness :
  exists left_out,
    Permutation
      (rerank_listings [Examples.berlin_a; Examples.munich_1]
         Examples.berlin_query ++ left_out)
      (scored Examples.berlin_query [Examples.berlin_a; Examples.munich_1])
    /\ left_out = [].
Proof.
  destruct (rerank_listings_keeps_the_best
              [Examples.berlin_a; Examples.munich_1] Examples.berlin_query)
    as (left_out & HP & _ & H).
  exists left_out. split; [exact HP|]. apply H. simpl. lia.
Defined.

(** X2.  Reranking the documents of a result again gives that same result:
    same listings, same scores, same order. *)
Theorem rerank_listings_idempotent :
  forall (listings : list Document.t) (user_inputs : UserInputs.t),
    rerank_listings (map snd (rerank_listings listings user_inputs))
      user_inputs
    = rerank_listings listings user_inputs.
Proof.
  intros listings ui.
  set (out := rerank_listings listings ui).
  assert (Hscored : scored ui (map snd out) = out).
  { unfold scored. rewrite map_map. rewrite <- (map_id out) at 2.
    apply map_ext_in. intros [s d] Hin. simpl.
    apply in_rerank_listings in Hin. now destruct Hin as [_ ->]. }
  assert (Hsorted : StronglySorted (key_desc fst) out).
  { pose proof (ranked_sorted listings ui) as Hs.
    rewrite <- (firstn_skipn 3 (sorted_reverse fst (scored ui listings)))
      in Hs.
    now apply sorted_app_inv in Hs. }
  rewrite rerank_listings_unfold, Hscored.
  rewrite (sorted_reverse_of_sorted fst out Hsorted).
  apply firstn_all2. subst out. rewrite rerank_listings_unfold.
  apply firstn_le_length.
Qed.

(** X3.  Whatever scores the candidates receive (none of them NaN), when
    no candidate scores below another the result is the first three
    candidates in the order of the input, each with its score.  This is so
    in particular when every candidate is zeroed by the city filter. *)
Theorem rerank_listings_all_tied :
  forall (score : Document.t -> pyfloat) (listings : list Document.t),
    (forall d, In d listings -> score d <> NaN) ->
    (forall d d', In d listings -> In d' listings ->
       flt (score d) (score d') = false) ->
    rerank_by score listings
    = map (fun doc => (score doc, doc)) (firstn 3 listings).
Proof.
  intros score listings _ Htie. unfold rerank_by.
  rewrite sorted_reverse_ties.
  - now rewrite firstn_map.
  - intros x y Hx Hy. apply in_map_iff in Hx, Hy.
    destruct Hx as (d & <- & Hd), Hy as (d' & <- & Hd'). simpl.
    now apply Htie.
Qed.

Lemma rerank_listings_all_tied_witness :
  rerank_by (score_listing Examples.berlin_query)
    [Examples.munich_1; Examples.munich_2; Examples.munich_3;
     Examples.munich_1]
  = [(Fin 0, Examples.munich_1); (Fin 0, Examples.munich_2);
     (Fin 0, Examples.munich_3)].
Proof.
  rewrite (rerank_listings_all_tied (score_listing Examples.berlin_query)
             [Examples.munich_1; Examples.munich_2; Examples.munich_3;
              Examples.munich_1]).
  - reflexivity.
  - intros d [<-|[<-|[<-|[<-|[]]]]]; vm_compute; discriminate.
  - intros d d' [<-|[<-|[<-|[<-|[]]]]] [<-|[<-|[<-|[<-|[]]]]]; reflexivity.
Defined.

(** X4.  The result is empty only when there is no candidate at all: a
    search that found listings always shows some, also when none of them
    matches the preferences. *)
Theorem rerank_listings_empty_iff :
  forall (listings : list Document.t) (user_inputs : UserInputs.t),
    rerank_listings listings user_inputs = [] <-> listings = [].
Proof.
  intros listings ui. split.
  - intros H. apply (f_equal (@List.length _)) in H.
    rewrite rerank_listings_unfold, length_firstn, sorted_reverse_length
      in H.
    unfold scored in H. rewrite length_map in H.
    destruct listings; [reflexivity|simpl in H; discriminate].
  - now intros ->.
Qed.

(** X5.  With a wanted city and a candidate location, both non-empty
    ASCII texts, the score is 0 exactly when the two differ after
    lower-casing; a location that differs from the city in letter case only
    is not filtered. *)
Theorem score_zero_iff_other_city :
  forall (user_inputs : UserInputs.t) (doc : Document.t)
         (city location : string),
    UserInputs.city user_inputs = Some city ->
    city <> EmptyString ->
    is_ascii city = true ->
    Metadata.location (Document.metadata doc) = Some location ->
    location <> EmptyString ->
    is_ascii location = true ->
    (score_listing user_inputs doc = Fin 0 <-> lower location <> lower city)
    /\ (lower location = lower city ->
        at_least_five (score_listing user_inputs doc)).
Proof.
  intros ui doc city location Hc Hcne _ Hl Hlne _.
  assert (Hoc : other_city ui (Document.metadata doc)
                = negb (String.eqb (lower location) (lower city))).
  { unfold other_city. rewrite Hc, Hl. unfold get_text.
    destruct city; [congruence|]. destruct location; [congruence|].
    reflexivity. }
  assert (Hsame : lower location = lower city ->
                  at_least_five (score_listing ui doc)).
  { intros E. apply score_listing_same_city.
    rewrite Hoc. apply negb_false_iff, String.eqb_eq, E. }
  split; [|exact Hsame]. split.
  - intros H0 E. specialize (Hsame E). rewrite H0 in Hsame. discriminate.
  - intros Hd. apply score_listing_other_city.
    rewrite Hoc. apply negb_true_iff, String.eqb_neq, Hd.
Qed.

Lemma score_zero_iff_other_city_witness :
  (score_listing Examples.berlin_only
     (Examples.listing (Some "BERLIN") 1 1 None) = Fin 0
   <-> lower "BERLIN" <> lower "Berlin")
  /\ (lower "BERLIN" = lower "Berlin" ->
      at_least_five (score_listing Examples.berlin_only
                       (Examples.listing (Some "BERLIN") 1 1 None))).
Proof.
  apply (score_zero_iff_other_city Examples.berlin_only
           (Examples.listing (Some "BERLIN") 1 1 None) "Berlin" "BERLIN");
    [reflexivity | discriminate | reflexivity | reflexivity | discriminate
    | reflexivity].
Defined.

(** *** The proximity steps *)

Lemma Qis_zero_true (q : Q) : Qis_zero q = true <-> q == 0.
Proof. unfold Qis_zero. apply Qeq_bool_iff. Qed.

Lemma Qis_zero_false (q : Q) : Qis_zero q = false <-> ~ q == 0.
Proof.
  rewrite <- Qis_zero_true. destruct (Qis_zero q); split; congruence.
Qed.


Lemma Qis_neg_false (q : Q) : Qis_neg q = false <-> 0 <= q.
Proof. apply Qltb_ge. Qed.

Lemma Qdiv_nonneg (a b : Q) : 0 <= a -> 0 < b -> 0 <= a / b.
Proof.
  intros Ha Hb. apply Qle_shift_div_l; [assumption|]. lra.
Qed.

(** What a proximity step divides by the wanted amount is not below zero,
    unless the wanted amount is a finite number below zero. *)
Lemma ratio_not_negative (wanted actual ratio : pyfloat) :
  (forall q, wanted = Fin q -> 0 <= q) ->
  fdiv (fabs (fsub wanted actual)) wanted = Ok ratio ->
  match ratio with
  | Fin r => 0 <= r
  | Inf n => n = false
  | NaN => True
  end.
Proof.
  intros Hw E. destruct wanted as [q|n|].
  - specialize (Hw q eq_refl).
    destruct actual as [a|m|]; cbn [fdiv fabs fsub fadd fneg] in E;
      destruct (Qis_zero q) eqn:Hz; try discriminate;
      injection E as <-; auto.
    + apply Qis_zero_false in Hz.
      apply Qdiv_nonneg; [exact (Qabs_nonneg (q + - a))|].
      apply Qle_lteq in Hw. destruct Hw as [Hw|Hw]; [assumption|].
      symmetry in Hw. contradiction.
    + cbn [xorb]. apply Qis_neg_false, Hw.
  - destruct actual as [a|m|]; cbn [fdiv fabs fsub fadd fneg negb] in E;
      try (destruct n, m; cbn [Bool.eqb negb] in E);
      injection E as <-; auto; lra.
  - destruct actual as [a|m|]; cbn [fdiv fabs fsub fadd fneg] in E;
      injection E as <-; exact I.
Qed.

(** X6.  Unless the wanted amount is a finite number below zero, a proximity
    step adds at least 0 and at most its cap (3 for the budget, 2 for the
    size), whatever the candidate's number is, infinite and NaN included. *)
Theorem closeness_within_cap :
  forall (cap : Z) (wanted_text : string) (actual : pynum)
         (wanted x : pyfloat),
    (0 <= cap)%Z ->
    float_of_string wanted_text = Some wanted ->
    (forall q, wanted = Fin q -> 0 <= q) ->
    closeness cap wanted_text actual = Ok x ->
    fle (of_int 0) x = true /\ fle x (of_int cap) = true.
Proof.
  intros cap wt actual wanted x Hcap Hw Hpos. unfold closeness. rewrite Hw.
  assert (Hc : fle (of_int 0) (of_int cap) = true).
  { simpl. apply Qle_bool_iff. change 0 with (inject_Z 0).
    now rewrite <- Zle_Qle. }
  destruct (fdiv (fabs (fsub wanted (to_float actual))) wanted)
    as [ratio|e] eqn:E; [|discriminate].
  remember (fsub (of_int cap) ratio) as y eqn:Ey.
  intros [= <-]. split; [apply max_zero_nonneg|].
  unfold max. destruct (flt (of_int 0) y) eqn:F; [|exact Hc].
  subst y. pose proof (ratio_not_negative _ _ _ Hpos E) as Hr.
  destruct ratio as [r|n|]; simpl in *; try discriminate.
  - apply Qle_bool_iff. lra.
  - subst n. discriminate.
Qed.

Lemma closeness_within_cap_witness :
  exists x,
    closeness 3 "450000" (PInt 600000) = Ok x
    /\ fle (of_int 0) x = true /\ fle x (of_int 3) = true.
Proof.
  eexists. split; [reflexivity|].
  apply (closeness_within_cap 3 "450000" (PInt 600000) (Fin 450000));
    [lia | reflexivity | | reflexivity].
  intros q [= <-]. discriminate.
Defined.






(** X9.  A candidate whose number equals the wanted amount gets the whole
    cap: when the step adds, it adds exactly the cap. *)
Theorem closeness_of_exact_match :
  forall (cap : Z) (wanted_text : string) (actual : pynum) (q a : Q)
         (x : pyfloat),
    (0 <= cap)%Z ->
    float_of_string wanted_text = Some (Fin q) ->
    to_float actual = Fin a ->
    a == q ->
    closeness cap wanted_text actual = Ok x ->
    feq x (of_int cap).
Proof.
  intros cap wt actual q a x Hcap Hw Ha Haq.
  unfold closeness. rewrite Hw, Ha. cbn [fdiv fabs fsub fadd fneg].
  destruct (Qis_zero q) eqn:Hz; [discriminate|].
  apply Qis_zero_false in Hz.
  assert (Hr : Qabs (q + - a) / q == 0).
  { assert (E : q + - a == 0) by lra.
    rewrite E. change (Qabs 0) with 0. field. exact Hz. }
  assert (Hc : 0 <= inject_Z cap).
  { change 0 with (inject_Z 0). now rewrite <- Zle_Qle. }
  unfold max, of_int. cbn [flt fsub fadd fneg].
  revert Hr Hc. generalize (Qabs (q + - a) / q) (inject_Z cap).
  intros r c Hr Hc.
  destruct (Qltb (inject_Z 0) (c + - r)) eqn:F; intros [= <-]; cbn [feq].
  - lra.
  - apply Qltb_ge in F. change (inject_Z 0) with 0 in *. lra.
Qed.

Lemma closeness_of_exact_match_witness :
  exists x,
    closeness 3 "450000" (PInt 450000) = Ok x /\ feq x (of_int 3).
Proof.
  eexists. split; [reflexivity|].
  apply (closeness_of_exact_match 3 "450000" (PInt 450000) 450000 450000);
    [lia | reflexivity | reflexivity | reflexivity | reflexivity].
Defined.

(** *** An upper bound of the score *)








(* ================================================================== *)
(** ** More on the preferences *)

Lemma join_not_empty (sep : string) (c : ascii) (first : string)
    (others : list string) :
  join sep (String c first :: others) <> EmptyString.
Proof. unfold join. destruct others; simpl; discriminate. Qed.

Lemma template_not_empty (f : field) (value : string) :
  exists c rest, template f value = String c rest.
Proof. destruct f; simpl; eauto. Qed.

(** X11.  The query text is empty exactly when no field is present and
    non-empty: every sentence starts with its own words, so nothing the
    user entered can make the text vanish. *)
Theorem parse_preferences_empty_iff :
  forall (user_inputs_dict : UserInputs.t),
    parse_preferences user_inputs_dict = EmptyString
    <-> forall f, present user_inputs_dict f = false.
Proof.
  intros d. rewrite parse_preferences_sentences. split.
  - intros H f.
    destruct (filter (present d) field_order) as [|g l] eqn:E.
    + destruct (present d f) eqn:P; [|reflexivity].
      assert (Hin : In f (filter (present d) field_order)).
      { apply filter_In. split; [|assumption].
        destruct f; simpl; tauto. }
      rewrite E in Hin. destruct Hin.
    + cbn [map] in H.
      destruct (template_not_empty g (rendered (lookup d g)))
        as (c & r & T).
      rewrite T in H. destruct (join_not_empty _ _ _ _ H).
  - intros H.
    assert (E : filter (present d) field_order = []).
    { unfold field_order. simpl. now rewrite !H. }
    now rewrite E.
Qed.

(** X12.  Dropping the empty fields a second time changes nothing, and in the
    dict it leaves every key holds a value that counts as true: testing
    [d.get(key)] there is testing whether the key is there. *)
Theorem drop_empty_idempotent :
  forall (raw_inputs : UserInputs.t),
    let d := drop_empty raw_inputs in
    drop_empty d = d
    /\ get_text (UserInputs.square_feet d) = UserInputs.square_feet d
    /\ get_text (UserInputs.city d) = UserInputs.city d
    /\ get_text (UserInputs.budget d) = UserInputs.budget d
    /\ get_text (UserInputs.features d) = UserInputs.features d
    /\ get_seq (UserInputs.amenities d) = UserInputs.amenities d
    /\ get_seq (UserInputs.neighborhoods d) = UserInputs.neighborhoods d.
Proof.
  intros [sf c b f a n]. simpl.
  assert (Ht : forall x, keep_text (keep_text x) = keep_text x
                         /\ get_text (keep_text x) = keep_text x)
    by (intros x; now text_cases x).
  assert (Hq : forall x, keep_seq (keep_seq x) = keep_seq x
                         /\ get_seq (keep_seq x) = keep_seq x)
    by (intros x; now seq_cases x).
  unfold drop_empty. simpl.
  rewrite !(proj1 (Ht _)), !(proj1 (Hq _)).
  repeat split; try apply Ht; apply Hq.
Qed.

(* ================================================================== *)
(** ** More on the numeric helpers *)

(** *** Stripping *)

Lemma lstrip_chars_suffix (cs : list ascii) :
  exists spaces, cs = spaces ++ lstrip_chars cs.
Proof.
  induction cs as [|c cs IH]; [now exists []|].
  simpl. destruct (is_space c).
  - destruct IH as [sp E]. exists (c :: sp). simpl. now rewrite <- E.
  - now exists [].
Qed.

Lemma lstrip_chars_head (cs : list ascii) (c : ascii) (rest : list ascii) :
  lstrip_chars cs = c :: rest -> is_space c = false.
Proof.
  induction cs as [|a cs IH]; simpl; [discriminate|].
  destruct (is_space a) eqn:E; [assumption|].
  now intros [= <- _].
Qed.

Lemma lstrip_chars_id (c : ascii) (cs : list ascii) :
  is_space c = false -> lstrip_chars (c :: cs) = c :: cs.
Proof. simpl. now intros ->. Qed.

Lemma Forall_lstrip_chars (P : ascii -> Prop) (cs : list ascii) :
  Forall P cs -> Forall P (lstrip_chars cs).
Proof.
  intros H. destruct (lstrip_chars_suffix cs) as [sp E].
  rewrite E in H. now apply Forall_app in H.
Qed.

Lemma Forall_strip_chars (P : ascii -> Prop) (cs : list ascii) :
  Forall P cs -> Forall P (strip_chars cs).
Proof.
  intros H. unfold strip_chars.
  apply Forall_rev, Forall_lstrip_chars, Forall_rev, Forall_lstrip_chars, H.
Qed.

Lemma last_rev_cons {A} (l : list A) (a d : A) :
  last (rev (a :: l)) d = a.
Proof. simpl. apply last_last. Qed.

(** What [strip] leaves has no whitespace at either end. *)
Lemma strip_chars_ends (cs : list ascii) :
  match strip_chars cs with
  | [] => True
  | c :: rest => is_space c = false /\ is_space (last rest c) = false
  end.
Proof.
  unfold strip_chars.
  destruct (lstrip_chars (rev (lstrip_chars cs))) as [|b back] eqn:B;
    [exact I|].
  pose proof (lstrip_chars_head _ _ _ B) as Hb.
  (* [b] is the last character kept, the first one is the head of
     [lstrip_chars cs] *)
  destruct (lstrip_chars cs) as [|a front] eqn:F; [discriminate|].
  pose proof (lstrip_chars_head _ _ _ F) as Ha.
  destruct (lstrip_chars_suffix (rev (a :: front))) as [sp E].
  rewrite B in E.
  assert (Er : rev (b :: back) ++ rev sp = a :: front).
  { rewrite <- rev_app_distr, <- E. apply rev_involutive. }
  destruct (rev (b :: back)) as [|x xs] eqn:R.
  { apply (f_equal (@List.length _)) in R. rewrite length_rev in R.
    discriminate. }
  simpl in Er. injection Er as -> _. split; [exact Ha|].
  assert (L : last (a :: xs) a = b).
  { rewrite <- R. apply last_rev_cons. }
  simpl in L. destruct xs; simpl in *; congruence.
Qed.

Lemma strip_chars_id (cs : list ascii) :
  match cs with
  | [] => True
  | c :: rest => is_space c = false /\ is_space (last rest c) = false
  end ->
  strip_chars cs = cs.
Proof.
  destruct cs as [|c rest]; [reflexivity|]. intros [Hc Hl].
  unfold strip_chars. rewrite (lstrip_chars_id c rest Hc).
  destruct (rev (c :: rest)) as [|x xs] eqn:R.
  { apply (f_equal (@List.length _)) in R. rewrite length_rev in R.
    discriminate. }
  assert (Hx : x = last rest c).
  { apply (f_equal (@rev _)) in R. rewrite rev_involutive in R.
    simpl in R.
    assert (L : last (c :: rest) c = last (rev xs ++ [x]) c)
      by now rewrite R.
    rewrite last_last in L. rewrite <- L.
    destruct rest; reflexivity. }
  rewrite lstrip_chars_id by (now rewrite Hx).
  rewrite <- R. apply rev_involutive.
Qed.

(** *** Texts of digits and dots *)

Lemma numeric_char_cases (c : ascii) :
  numeric_char c ->
  is_space c = false
  /\ c <> "+"%char /\ c <> "-"%char
  /\ lower_char c <> "i"%char /\ lower_char c <> "n"%char.
Proof.
  intros [H| ->]; [|repeat split; discriminate].
  destruct c as [[] [] [] [] [] [] [] []]; try discriminate H;
    repeat split; discriminate.
Qed.

Lemma keep_digits_and_dots_numeric (s : string) :
  Forall numeric_char (list_ascii_of_string (keep_digits_and_dots s)).
Proof.
  apply Forall_forall. intros c Hc.
  now apply keep_digits_and_dots_spec in Hc.
Qed.

Lemma split_sign_numeric (cs : list ascii) :
  Forall numeric_char cs -> split_sign cs = (false, cs).
Proof.
  destruct cs as [|c cs]; [reflexivity|]. intros H.
  inversion H as [|? ? Hc _]; subst.
  apply numeric_char_cases in Hc. destruct Hc as (_ & Hp & Hm & _).
  unfold split_sign.
  destruct c as [[] [] [] [] [] [] [] []]; congruence.
Qed.

Lemma lower_chars_numeric (cs : list ascii) (c : ascii) (word : string) :
  Forall numeric_char cs -> c = "i"%char \/ c = "n"%char ->
  String.eqb (lower_chars cs) (String c word) = false.
Proof.
  intros H Hc. apply String.eqb_neq. unfold lower_chars.
  destruct cs as [|a cs]; simpl; [discriminate|].
  inversion H as [|? ? Ha _]; subst.
  apply numeric_char_cases in Ha. destruct Ha as (_ & _ & _ & Hi & Hn).
  intros [= E _]. destruct Hc; congruence.
Qed.

Lemma digits_value_acc (ds : list ascii) (acc : Z) :
  (0 <= acc)%Z ->
  (0 <= fold_left (fun a d => (10 * a + digit_value d)%Z) ds acc)%Z.
Proof.
  revert acc.
  induction ds as [|d ds IH]; intros acc H; cbn [fold_left]; [assumption|].
  apply IH. unfold digit_value. lia.
Qed.

Lemma digits_value_nonneg (ds : list ascii) : (0 <= digits_value ds)%Z.
Proof. apply digits_value_acc. lia. Qed.

Lemma floatnumber_nonneg (cs : list ascii) (q : Q) :
  floatnumber cs = Some q -> 0 <= q.
Proof.
  unfold floatnumber.
  destruct (digitpart cs) as [ip after_ip].
  destruct (match after_ip with
            | "."%char :: r => digitpart r
            | _ => ([], after_ip)
            end) as [fp after_fp].
  assert (H : forall e,
            0 <= inject_Z (digits_value (ip ++ fp))
                 * Qpower (10 # 1) (e - Z.of_nat (List.length fp))).
  { intros e. apply Qmult_le_0_compat.
    - change 0 with (inject_Z 0). rewrite <- Zle_Qle.
      apply digits_value_nonneg.
    - apply Qpower_0_le. discriminate. }
  destruct ip, fp; try discriminate;
    destruct (exponent after_fp); try discriminate;
    intros [= <-]; apply H.
Qed.

(** The conversion inside [safe_float] can only give a finite number that
    is not below zero. *)
Lemma float_of_cleaned_text (s : string) (f : pyfloat) :
  float_of_string (keep_digits_and_dots s) = Some f ->
  exists q, f = Fin q /\ 0 <= q.
Proof.
  unfold float_of_string.
  pose proof (Forall_strip_chars _ _ (keep_digits_and_dots_numeric s)) as H.
  rewrite (split_sign_numeric _ H).
  rewrite !(lower_chars_numeric _ _ _ H) by auto. simpl.
  destruct (floatnumber _) as [q|] eqn:E; [|discriminate].
  intros [= <-]. exists q. split; [reflexivity|].
  now apply floatnumber_nonneg in E.
Qed.

(** X13.  When [safe_float] returns without a warning, what it returns is a
    float that is neither NaN nor below zero: signs, exponents and the words
    inf and nan do not survive the removal of everything but digits and
    dots. *)
Theorem safe_float_result_is_not_negative :
  forall (float_repr : pyfloat -> string) (val dflt v : pyval),
    safe_float float_repr val dflt = (Ok v, []) ->
    exists f, v = VNum (PFloat f) /\ fle (of_int 0) f = true.
Proof.
  intros float_repr val dflt v. rewrite safe_float_returns.
  destruct (float_of_string _) as [f|] eqn:E; [|discriminate].
  intros [= <-]. apply float_of_cleaned_text in E.
  destruct E as (q & -> & Hq). exists (Fin q). split; [reflexivity|].
  simpl. now apply Qle_bool_iff.
Qed.

Lemma safe_float_result_is_not_negative_witness :
  exists f,
    VNum (PFloat (Fin 1200.50)) = VNum (PFloat f)
    /\ fle (of_int 0) f = true.
Proof.
  apply (safe_float_result_is_not_negative Examples.no_repr
           (VStr "-1,200.50 EUR") VNone).
  reflexivity.
Defined.

(** X14.  For a value whose text Python can produce, [parse_price] does not
    raise and returns a number that is not below zero: the float read from
    the digits and dots, without a warning and whatever the generator
    delivers, or else what [random.randint(100000, 900000)] gave, an integer
    of that range, with one warning. *)
Theorem parse_price_returns_a_price :
  forall (float_repr : pyfloat -> string) (r : Z) (val : pyval),
    printable val ->
    exists v log,
      parse_price float_repr r val = (Ok v, log)
      /\ nonneg_number v
      /\ (log = []
          /\ (forall other,
                parse_price float_repr other val = (Ok v, []))
          \/ exists price,
               price = randint 100000 900000 r
               /\ (100000 <= price <= 900000)%Z
               /\ log = [WarnParseFloat val (VNum (PInt price)) ValueError]
               /\ v = VNum (PInt price)).
Proof.
  intros float_repr r val _. unfold parse_price.
  rewrite safe_float_returns.
  pose proof (randint_in_range 100000 900000 r ltac:(lia)) as Hrange.
  destruct (float_of_string _) as [f|] eqn:E.
  - exists (VNum (PFloat f)), []. split; [reflexivity|].
    destruct (float_of_cleaned_text _ _ E) as (q & -> & Hq). split.
    + exists (PFloat (Fin q)). split; [reflexivity|].
      simpl. now apply Qle_bool_iff.
    + left. split; [reflexivity|]. intros other.
      now rewrite safe_float_returns, E.
  - revert Hrange. generalize (randint 100000 900000 r). intros price Hrange.
    exists (VNum (PInt price)),
      [WarnParseFloat val (VNum (PInt price)) ValueError].
    split; [reflexivity|]. split.
    + exists (PInt price). split; [reflexivity|].
      simpl. apply Qle_bool_iff. change 0 with (inject_Z 0).
      rewrite <- Zle_Qle. lia.
    + right. exists price. repeat split; try lia.
Qed.

Lemma parse_price_returns_a_price_witness :
  exists v log,
    parse_price Examples.no_repr 400000 (VStr "12.5k") = (Ok v, log)
    /\ nonneg_number v
    /\ (log = []
        /\ (forall other,
              parse_price Examples.no_repr other (VStr "12.5k")
              = (Ok v, []))
        \/ exists price,
             price = randint 100000 900000 400000
             /\ (100000 <= price <= 900000)%Z
             /\ log = [WarnParseFloat (VStr "12.5k") (VNum (PInt price))
                         ValueError]
             /\ v = VNum (PInt price)).
Proof.
  apply (parse_price_returns_a_price Examples.no_repr 400000
           (VStr "12.5k")).
  exact I.
Defined.

(** X15.  [safe_int] has three outcomes and no other: the integer read,
    without a warning; the default as it was given, with one warning, when
    the conversion fails with a ValueError or a TypeError; an OverflowError
    that leaves the function, and this only when the value is an infinite
    float. *)
Theorem safe_int_outcomes :
  forall (val dflt : pyval),
    (exists z,
       int val = Ok z /\ safe_int val dflt = (Ok (VNum (PInt z)), []))
    \/ ((int val = Raise ValueError \/ int val = Raise TypeError)
        /\ safe_int val dflt = (Ok dflt, [WarnParseInt val dflt]))
    \/ (exists negative,
          val = VNum (PFloat (Inf negative))
          /\ safe_int val dflt = (Raise OverflowError, [])).
Proof.
  intros val dflt. unfold safe_int.
  destruct val as [|b|[z|[q|n|]]|s|shown]; simpl.
  - right. left. auto.
  - left. eexists. split; reflexivity.
  - left. eexists. split; reflexivity.
  - left. eexists. split; reflexivity.
  - right. right. exists n. split; reflexivity.
  - right. left. auto.
  - destruct (int_of_string s) as [z|].
    + left. eexists. split; reflexivity.
    + right. left. auto.
  - right. left. auto.
Qed.

(** *** Decimal text of an integer *)

Lemma digit_cases (c : ascii) :
  is_digit c = true ->
  is_space c = false /\ Ascii.eqb c "_" = false
  /\ split_sign [c] = (false, [c]).
Proof.
  destruct c as [[] [] [] [] [] [] [] []]; intros H; try discriminate H;
    repeat split.
Qed.

Lemma udigits_digits (d : Decimal.uint) :
  Forall (fun c => is_digit c = true) (udigits d).
Proof.
  unfold udigits. induction d; simpl; constructor; auto.
Qed.

Lemma udigits_not_nil (d : Decimal.uint) : d <> Decimal.Nil -> udigits d <> [].
Proof. destruct d; [congruence|..]; intros _; discriminate. Qed.

Lemma digitpart_digits (ds : list ascii) :
  Forall (fun c => is_digit c = true) ds -> digitpart ds = (ds, []).
Proof.
  induction 1 as [|c ds Hc Hds IH]; [reflexivity|].
  cbn [digitpart]. rewrite Hc. destruct ds as [|u after_u]; [reflexivity|].
  inversion Hds as [|? ? Hu _]; subst.
  destruct (digit_cases u Hu) as (_ & -> & _).
  cbn [andb]. now rewrite IH.
Qed.

Lemma digits_value_udigits_acc (d r : Decimal.uint) :
  fold_left (fun acc c => (10 * acc + digit_value c)%Z) (udigits d)
            (Z.of_N (Unsigned.of_lu r))
  = Z.of_N (Unsigned.of_lu (Decimal.revapp d r)).
Proof.
  unfold udigits. revert r.
  induction d; intros r; cbn [NilEmpty.string_of_uint list_ascii_of_string
                               fold_left Decimal.revapp];
    [reflexivity|..];
    rewrite <- IHd; f_equal; cbn [Unsigned.of_lu];
    match goal with
    | |- context [digit_value ?c] =>
        let v := eval vm_compute in (digit_value c) in
        change (digit_value c) with v
    end;
    lia.
Qed.

Lemma digits_value_udigits (d : Decimal.uint) :
  digits_value (udigits d) = Z.of_uint d.
Proof.
  unfold digits_value, Z.of_uint.
  rewrite Unsigned.of_uint_alt.
  apply (digits_value_udigits_acc d Decimal.Nil).
Qed.

Lemma int_of_digits (d : Decimal.uint) (sign : list ascii) (neg : bool) :
  d <> Decimal.Nil ->
  split_sign (sign ++ udigits d) = (neg, udigits d) ->
  match sign ++ udigits d with
  | c :: _ => is_space c = false
  | [] => True
  end ->
  int_of_string (string_of_list_ascii (sign ++ udigits d))
  = Some (if neg then - Z.of_uint d else Z.of_uint d)%Z.
Proof.
  intros Hd Hsign Hhead. unfold int_of_string.
  rewrite list_ascii_of_string_of_list_ascii.
  pose proof (udigits_digits d) as Hds.
  pose proof (udigits_not_nil d Hd) as Hne.
  rewrite strip_chars_id.
  - rewrite Hsign, (digitpart_digits _ Hds).
    destruct (udigits d) eqn:E; [congruence|].
    rewrite <- E, digits_value_udigits. reflexivity.
  - destruct (sign ++ udigits d) as [|c rest] eqn:E; [exact I|].
    split; [exact Hhead|].
    (* the last character is a digit *)
    assert (Hl : is_digit (last (c :: rest) c) = true).
    { rewrite <- E.
      destruct (exists_last Hne) as (front & l & El).
      rewrite El, app_assoc, last_last.
      rewrite El in Hds. apply Forall_app in Hds. destruct Hds as [_ Hl].
      now inversion Hl. }
    destruct rest as [|c' rest'].
    + exact Hhead.
    + change (last (c :: c' :: rest') c) with (last (c' :: rest') c) in Hl.
      now apply digit_cases in Hl.
Qed.

Lemma int_of_str_of_int (z : Z) : int_of_string (str_of_int z) = Some z.
Proof.
  unfold str_of_int. destruct z as [|p|p]; [reflexivity|..].
  - cbn [Z.to_int NilZero.string_of_int].
    pose proof (Unsigned.to_uint_nonnil p) as Hd.
    assert (E : NilZero.string_of_uint (Pos.to_uint p)
                = string_of_list_ascii ([] ++ udigits (Pos.to_uint p))).
    { unfold udigits. simpl. rewrite string_of_list_ascii_of_string.
      destruct (Pos.to_uint p); [congruence|..]; reflexivity. }
    rewrite E.
    pose proof (udigits_digits (Pos.to_uint p)) as Hds.
    pose proof (udigits_not_nil _ Hd) as Hne.
    rewrite (int_of_digits _ [] false Hd).
    + f_equal. exact (DecimalZ.of_to (Z.pos p)).
    + simpl. destruct (udigits (Pos.to_uint p)) as [|c rest]; [congruence|].
      inversion Hds as [|? ? Hc _]; subst.
      destruct c as [[] [] [] [] [] [] [] []]; try discriminate Hc;
        reflexivity.
    + simpl. destruct (udigits (Pos.to_uint p)) as [|c rest]; [exact I|].
      inversion Hds as [|? ? Hc _]; subst. now apply digit_cases in Hc.
  - cbn [Z.to_int NilZero.string_of_int].
    pose proof (Unsigned.to_uint_nonnil p) as Hd.
    assert (E : String "-" (NilZero.string_of_uint (Pos.to_uint p))
                = string_of_list_ascii
                    (["-"%char] ++ udigits (Pos.to_uint p))).
    { unfold udigits. simpl. rewrite string_of_list_ascii_of_string.
      destruct (Pos.to_uint p); [congruence|..]; reflexivity. }
    rewrite E.
    rewrite (int_of_digits _ ["-"%char] true Hd); try reflexivity.
    f_equal. exact (DecimalZ.of_to (Z.neg p)).
Qed.

(** X16.  Reading back the decimal text of an integer gives the integer:
    for every integer [z] of at most 4300 digits, [safe_int] of the text
    [str(z)] is [z], and no warning is logged. *)
Theorem safe_int_reads_back_str :
  forall (z : Z) (dflt : pyval),
    within_digit_limit z ->
    safe_int (VStr (str_of_int z)) dflt = (Ok (VNum (PInt z)), []).
Proof.
  intros z dflt _.
  apply safe_int_returns_int. simpl. now rewrite int_of_str_of_int.
Qed.

Lemma safe_int_reads_back_str_witness :
  safe_int (VStr (str_of_int (-1180))) VNone
  = (Ok (VNum (PInt (-1180))), []).
Proof.
  apply (safe_int_reads_back_str (-1180) VNone).
  unfold within_digit_limit, max_str_digits.
  apply Z.ltb_lt. vm_compute. reflexivity.
Defined.

Lemma keep_digits_and_dots_digits (ds : list ascii) :
  Forall (fun c => is_digit c = true) ds ->
  keep_digits_and_dots (string_of_list_ascii ds) = string_of_list_ascii ds.
Proof.
  induction 1 as [|c ds Hc _ IH]; [reflexivity|].
  simpl. now rewrite Hc, IH.
Qed.

Lemma float_of_digits (d : Decimal.uint) :
  d <> Decimal.Nil ->
  float_of_string (string_of_list_ascii (udigits d))
  = Some (Fin (inject_Z (Z.of_uint d) * Qpower (10 # 1) (0 - Z.of_nat 0))).
Proof.
  intros Hd. unfold float_of_string.
  rewrite list_ascii_of_string_of_list_ascii.
  pose proof (udigits_digits d) as Hds.
  pose proof (udigits_not_nil d Hd) as Hne.
  assert (Hnum : Forall numeric_char (udigits d)).
  { eapply Forall_impl; [|exact Hds]. intros c Hc. now left. }
  rewrite strip_chars_id.
  - rewrite (split_sign_numeric _ Hnum).
    rewrite !(lower_chars_numeric _ _ _ Hnum) by auto. cbn [orb].
    unfold floatnumber. rewrite (digitpart_digits _ Hds).
    destruct (udigits d) as [|c rest] eqn:E; [congruence|].
    cbn [exponent List.length]. rewrite app_nil_r.
    rewrite <- E, digits_value_udigits. reflexivity.
  - destruct (udigits d) as [|c rest] eqn:E; [exact I|].
    inversion Hds as [|? ? Hc Hrest]; subst. split.
    + now apply digit_cases in Hc.
    + assert (Hl : forall l a,
                Forall (fun c => is_digit c = true) l ->
                is_digit a = true -> is_digit (last l a) = true).
      { intros l. induction l as [|x l IH]; intros a Hl Ha; [exact Ha|].
        inversion Hl as [|? ? Hx Hl']; subst.
        destruct l; [exact Hx|]. exact (IH a Hl' Ha). }
      specialize (Hl rest c Hrest Hc).
      now apply digit_cases in Hl.
Qed.

(** X17.  [safe_float] loses the sign: for every integer value that a
    float holds exactly (up to 2^53 either way), negative ones included, it
    returns the absolute value as a float, without a warning. *)
Theorem safe_float_of_int_is_absolute_value :
  forall (float_repr : pyfloat -> string) (z : Z) (dflt : pyval),
    exact_in_binary64 z ->
    exists q,
      safe_float float_repr (VNum (PInt z)) dflt
      = (Ok (VNum (PFloat (Fin q))), [])
      /\ q == inject_Z (Z.abs z).
Proof.
  intros float_repr z dflt _. rewrite safe_float_returns.
  cbn [str str_of_num]. unfold str_of_int.
  assert (H : forall d, d <> Decimal.Nil ->
            float_of_string
              (keep_digits_and_dots (NilEmpty.string_of_uint d))
            = Some (Fin (inject_Z (Z.of_uint d)
                         * Qpower (10 # 1) (0 - Z.of_nat 0)))).
  { intros d Hd.
    rewrite <- (string_of_list_ascii_of_string
                  (NilEmpty.string_of_uint d)).
    fold (udigits d).
    rewrite keep_digits_and_dots_digits by apply udigits_digits.
    now apply float_of_digits. }
  assert (Hone : forall x, x * Qpower (10 # 1) (0 - Z.of_nat 0) == x)
    by (intros x; simpl; ring).
  destruct z as [|p|p].
  - eexists. split; [reflexivity|]. reflexivity.
  - cbn [Z.to_int NilZero.string_of_int].
    pose proof (Unsigned.to_uint_nonnil p) as Hd.
    assert (E : NilZero.string_of_uint (Pos.to_uint p)
                = NilEmpty.string_of_uint (Pos.to_uint p))
      by (destruct (Pos.to_uint p); [congruence|..]; reflexivity).
    rewrite E, (H _ Hd). eexists. split; [reflexivity|].
    rewrite Hone.
    change (Z.of_uint (Pos.to_uint p))
      with (Z.of_int (Z.to_int (Z.pos p))).
    now rewrite DecimalZ.of_to.
  - cbn [Z.to_int NilZero.string_of_int].
    pose proof (Unsigned.to_uint_nonnil p) as Hd.
    assert (E : NilZero.string_of_uint (Pos.to_uint p)
                = NilEmpty.string_of_uint (Pos.to_uint p))
      by (destruct (Pos.to_uint p); [congruence|..]; reflexivity).
    rewrite E.
    change (keep_digits_and_dots
              (String "-" (NilEmpty.string_of_uint (Pos.to_uint p))))
      with (keep_digits_and_dots
              (NilEmpty.string_of_uint (Pos.to_uint p))).
    rewrite (H _ Hd). eexists. split; [reflexivity|].
    rewrite Hone.
    change (Z.of_uint (Pos.to_uint p))
      with (Z.of_int (Z.to_int (Z.pos p))).
    now rewrite DecimalZ.of_to.
Qed.

Lemma safe_float_of_int_is_absolute_value_witness :
  exists q,
    safe_float Examples.no_repr (VNum (PInt (-440000))) VNone
    = (Ok (VNum (PFloat (Fin q))), [])
    /\ q == inject_Z (Z.abs (-440000)).
Proof.
  apply (safe_float_of_int_is_absolute_value Examples.no_repr (-440000)
           VNone).
  unfold exact_in_binary64. apply Z.leb_le. vm_compute. reflexivity.
Defined.

(* ================================================================== *)
(** ** The fallback helpers *)

Import Fallbacks.

(** X18.  Without a default, [fallback_int] gives the integer read from the
    value, or else, with one warning, what [random.randint(1, 4)] gave, an
    integer from 1 to 4; it raises only for an infinite float.  With a
    default that is not None the generator plays no part. *)
Theorem fallback_int_outcomes :
  forall (r : Z) (val : pyval),
    let number := randint 1 4 r in
    ((exists z,
        int val = Ok z
        /\ fallback_int r val VNone = (Ok (VNum (PInt z)), []))
     \/ (fallback_int r val VNone
         = (Ok (VNum (PInt number)), [WarnParseInt val (VNum (PInt number))])
         /\ (1 <= number <= 4)%Z)
     \/ (exists negative,
           val = VNum (PFloat (Inf negative))
           /\ fallback_int r val VNone = (Raise OverflowError, [])))
    /\ (forall dflt other,
          dflt <> VNone ->
          fallback_int r val dflt = fallback_int other val dflt).
Proof.
  intros r val number. split.
  - pose proof (randint_in_range 1 4 r ltac:(lia)) as Hrange.
    fold number in Hrange. unfold fallback_int. fold number.
    clearbody number. unfold safe_int.
    destruct val as [|b|[z|[q|n|]]|s|shown]; simpl;
      try (right; left; split; [reflexivity|exact Hrange]);
      try (left; eexists; split; reflexivity).
    + right. right. exists n. split; reflexivity.
    + destruct (int_of_string s) as [z|].
      * left. eexists. split; reflexivity.
      * right. left. split; [reflexivity|exact Hrange].
  - intros dflt other Hd. unfold fallback_int.
    destruct dflt; congruence.
Qed.

Lemma fallback_int_outcomes_witness :
  fallback_int 2 (VStr "three") (VNum (PInt 7))
  = fallback_int 3 (VStr "three") (VNum (PInt 7)).
Proof.
  apply (proj2 (fallback_int_outcomes 2 (VStr "three"))).
  discriminate.
Defined.

(** X19.  [fallback_string] returns the text of a value that counts as
    true; for any other value (None, the empty string, zero) it returns an
    element of the fallback list, and when that list is empty it raises an
    IndexError: [pick_random] does not return None for an empty list. *)
Theorem fallback_string_outcomes :
  forall (float_repr : pyfloat -> string) (other_truthy : string -> bool)
         (val : pyval) (fallback_list : list string) (draw : nat),
    (truthy other_truthy val = true ->
     fallback_string float_repr other_truthy val fallback_list draw
     = Picked (str float_repr val))
    /\ (truthy other_truthy val = false ->
        (draw < List.length fallback_list)%nat ->
        exists s,
          fallback_string float_repr other_truthy val fallback_list draw
          = Picked s
          /\ In s fallback_list)
    /\ (truthy other_truthy val = false ->
        fallback_string float_repr other_truthy val [] draw = IndexError)
    /\ pick_random (@nil string) draw = IndexError.
Proof.
  intros float_repr other_truthy val lst draw.
  unfold fallback_string, pick_random. split; [|split; [|split]].
  - now intros ->.
  - intros -> Hlt.
    destruct (nth_error lst draw) as [s|] eqn:E.
    + exists s. split; [reflexivity|]. now apply nth_error_In in E.
    + apply nth_error_None in E. lia.
  - intros ->. now destruct draw.
  - now destruct draw.
Qed.

Lemma fallback_string_outcomes_witness :
  exists s,
    fallback_string Examples.no_repr (fun _ => true) (VStr EmptyString)
      CITIES 3
    = Picked s
    /\ In s CITIES.
Proof.
  apply (proj1 (proj2 (fallback_string_outcomes Examples.no_repr
                         (fun _ => true) (VStr EmptyString) CITIES 3)));
    [reflexivity | simpl; lia].
Defined.

(* ================================================================== *)
(** ** More on the description *)

Lemma prefix_app (x rest : string) : String.prefix x (x ++ rest) = true.
Proof.
  induction x as [|c x IH]; simpl; [now destruct rest|].
  destruct (Ascii.ascii_dec c c); [exact IH|congruence].
Qed.

Lemma prefix_app_l (x s rest : string) :
  String.prefix x s = true -> String.prefix x (s ++ rest) = true.
Proof.
  revert x. induction s as [|c s IH]; intros [|a x]; simpl; try congruence.
  - intros _. now destruct rest.
  - destruct (Ascii.ascii_dec a c); [apply IH|congruence].
Qed.

Lemma contains_prefix (s x : string) :
  String.prefix x s = true -> contains s x = true.
Proof. destruct s; simpl; now intros ->. Qed.

Lemma contains_here (x rest : string) : contains (x ++ rest) x = true.
Proof. apply contains_prefix, prefix_app. Qed.

Lemma contains_skip (p s x : string) :
  contains s x = true -> contains (p ++ s) x = true.
Proof.
  intros H. induction p as [|c p IH]; simpl; [exact H|].
  rewrite IH. apply orb_true_r.
Qed.

Lemma contains_app_l (s rest x : string) :
  contains s x = true -> contains (s ++ rest) x = true.
Proof.
  induction s as [|c s IH]; simpl.
  - rewrite orb_false_r. intros H.
    destruct x; [|discriminate]. now destruct rest.
  - intros H. apply orb_true_iff in H. destruct H as [H|H].
    + apply orb_true_iff. left.
      exact (prefix_app_l x (String c s) rest H).
    + rewrite (IH H). apply orb_true_r.
Qed.

Lemma join_contains_separator (sep a b x : string) (l : list string) :
  contains sep x = true -> contains (join sep (a :: b :: l)) x = true.
Proof.
  intros H. unfold join. cbn [String.concat].
  apply contains_skip, contains_app_l, H.
Qed.

(** X20.  [augment_listing_with_preferences] raises exactly when the
    description cannot be put together, that is when the price is missing,
    infinite or NaN, or when the amenities are missing; it does so before
    the model is asked, whatever the model would answer, and logs nothing.
    Otherwise it returns a text, with at most one warning, whether the model
    answers or fails. *)
Theorem augment_raises_only_before_the_model :
  forall (float_repr : pyfloat -> string) (listing : Metadata.t)
         (preferences : string) (llm : string -> result string),
    if describable listing then
      exists text log,
        augment_listing_with_preferences float_repr listing preferences llm
        = (Ok text, log)
        /\ (log = [] \/ exists e, log = [WarnLLMFailed e])
    else
      exists e,
        forall any_llm,
          augment_listing_with_preferences float_repr listing preferences
            any_llm
          = (Raise e, []).
Proof.
  intros float_repr listing preferences llm.
  unfold describable, augment_listing_with_preferences,
    raw_augmented_description, int_of_field, iterate.
  destruct (Metadata.price listing) as [[z|[q|n|]]|];
    destruct (Metadata.amenities listing) as [each|]; simpl;
    try (eexists; intros any_llm; reflexivity).
  - match goal with |- context [llm ?p] => destruct (llm p) as [t|e] end;
      simpl; do 2 eexists; (split; [reflexivity|]);
      [now left | right; now eexists].
  - match goal with |- context [llm ?p] => destruct (llm p) as [t|e] end;
      simpl; do 2 eexists; (split; [reflexivity|]);
      [now left | right; now eexists].
Qed.

(** X21.  When the model answers, its answer is returned with the
    whitespace at both ends removed and nothing is logged: the text
    returned neither starts nor ends with whitespace. *)
Theorem augment_returns_the_trimmed_answer :
  forall (float_repr : pyfloat -> string) (listing : Metadata.t)
         (preferences : string) (llm : string -> result string),
    describable listing = true ->
    (forall prompt, exists answer, llm prompt = Ok answer) ->
    exists prompt answer,
      llm prompt = Ok answer
      /\ augment_listing_with_preferences float_repr listing preferences llm
         = (Ok (strip answer), [])
      /\ trimmed (strip answer)
      /\ strip (strip answer) = strip answer.
Proof.
  intros float_repr listing preferences llm Hd Hllm.
  unfold describable in Hd.
  unfold augment_listing_with_preferences, raw_augmented_description,
    int_of_field, iterate.
  assert (Htrim : forall answer,
            trimmed (strip answer) /\ strip (strip answer) = strip answer).
  { intros answer. unfold trimmed, strip.
    rewrite list_ascii_of_string_of_list_ascii.
    pose proof (strip_chars_ends (list_ascii_of_string answer)) as H.
    split; [exact H|]. f_equal. now apply strip_chars_id. }
  destruct (Metadata.price listing) as [[z|[q|n|]]|]; try discriminate;
    destruct (Metadata.amenities listing) as [each|]; try discriminate;
    simpl;
    match goal with
    | |- context [llm ?p] =>
        destruct (Hllm p) as [answer Ha]; exists p, answer; rewrite Ha
    end;
    (split; [reflexivity|]); (split; [reflexivity|]); apply Htrim.
Qed.

Lemma augment_returns_the_trimmed_answer_witness :
  exists prompt answer,
    (fun _ : string => Ok "  A fine flat.  ") prompt = Ok answer
    /\ augment_listing_with_preferences Examples.no_repr
         Examples.bare_listing "Berlin, please."
         (fun _ => Ok "  A fine flat.  ")
       = (Ok (strip answer), [])
    /\ trimmed (strip answer)
    /\ strip (strip answer) = strip answer.
Proof.
  apply (augment_returns_the_trimmed_answer Examples.no_repr
           Examples.bare_listing "Berlin, please."
           (fun _ => Ok "  A fine flat.  "));
    [reflexivity|].
  intros prompt. eexists. reflexivity.
Defined.

(** X22.  With two or more amenity lines the description does state the
    facts: the price with its thousands separators, the location and the
    number of bedrooms all occur in it. *)
Theorem raw_description_states_the_facts :
  forall (float_repr : pyfloat -> string) (listing : Metadata.t)
         (preferences : string) (each : pyseq)
         (location first second : string) (others : list string)
         (bedrooms : Z),
    describable listing = true ->
    Metadata.amenities listing = Some each ->
    items each = first :: second :: others ->
    Metadata.location listing = Some location ->
    Metadata.number_of_bedrooms listing = Some bedrooms ->
    exists raw,
      raw_augmented_description float_repr listing preferences
      = (Ok raw, [])
      /\ contains raw (shown_price listing) = true
      /\ contains raw location = true
      /\ contains raw (str_of_int bedrooms) = true.
Proof.
  intros float_repr listing preferences each location first second others
    bedrooms Hd Ham Hitems Hloc Hbed.
  unfold describable in Hd.
  unfold raw_augmented_description, shown_price, iterate.
  rewrite Ham, Hloc, Hbed, Hitems.
  destruct (int_of_field (Metadata.price listing)) as [z|e] eqn:E.
  2:{ unfold int_of_field in E.
      destruct (Metadata.price listing) as [[y|[q|n|]]|]; discriminate. }
  cbv beta iota zeta delta [bind lift ret app].
  eexists. split; [reflexivity|].
  cbn [map show id].
  repeat split; apply join_contains_separator;
    repeat first [apply contains_here | apply contains_skip].
Qed.

Lemma raw_description_states_the_facts_witness :
  exists raw,
    raw_augmented_description Examples.no_repr
      (Document.metadata Examples.berlin_a) "Berlin, please."
    = (Ok raw, [])
    /\ contains raw
         (shown_price (Document.metadata Examples.berlin_a)) = true
    /\ contains raw "Berlin" = true
    /\ contains raw (str_of_int 3) = true.
Proof.
  apply (raw_description_states_the_facts Examples.no_repr
           (Document.metadata Examples.berlin_a) "Berlin, please."
           (Lst ["gym"; "pool"]) "Berlin" "gym" "pool" [] 3);
    reflexivity.
Defined.

(* ================================================================== *)
(** ** The logger *)

Lemma setup_logger_at (name : string) (level : Z) (reg : Logger.registry) :
  Logger.setup_logger name level reg name
  = match Logger.handlers (reg name) with
    | [] => Logger.mk_logger [Logger.stream_handler] level
    | _ :: _ => reg name
    end.
Proof.
  unfold Logger.setup_logger.
  destruct (Logger.handlers (reg name)) eqn:E; [|reflexivity].
  unfold Logger.update. now rewrite String.eqb_refl.
Qed.

Lemma setup_logger_elsewhere (name other : string) (level : Z)
    (reg : Logger.registry) :
  other <> name -> Logger.setup_logger name level reg other = reg other.
Proof.
  intros H. unfold Logger.setup_logger.
  destruct (Logger.handlers (reg name)); [|reflexivity].
  unfold Logger.update. apply String.eqb_neq in H. now rewrite H.
Qed.

Lemma setup_logger_twice (name : string) (first later : Z)
    (reg : Logger.registry) (n : string) :
  Logger.setup_logger name later (Logger.setup_logger name first reg) n
  = Logger.setup_logger name first reg n.
Proof.
  destruct (String.eqb_spec n name) as [->|Hn].
  - rewrite (setup_logger_at name later), (setup_logger_at name first).
    now destruct (Logger.handlers (reg name)) eqn:E; [|rewrite E].
  - now rewrite !setup_logger_elsewhere.
Qed.

(** X23.  Setting up a logger is done once: after the first call for a
    name, any number of later calls for that name, with whatever levels,
    leave every logger as it is.  In particular no second handler is added
    and the level of a later call is not applied. *)
Theorem setup_logger_once :
  forall (name : string) (first : Z) (later : list Z)
         (reg : Logger.registry) (n : string),
    fold_left (fun r level => Logger.setup_logger name level r) later
      (Logger.setup_logger name first reg) n
    = Logger.setup_logger name first reg n.
Proof.
  intros name first later. induction later as [|l later IH]; intros reg n;
    [reflexivity|].
  cbn [fold_left].
  assert (E : forall r r' : Logger.registry,
            (forall m, r m = r' m) ->
            forall m,
              fold_left (fun r level => Logger.setup_logger name level r)
                later r m
              = fold_left (fun r level => Logger.setup_logger name level r)
                  later r' m).
  { clear IH. induction later as [|x xs IHx]; intros r r' H m;
      [apply H|].
    cbn [fold_left]. apply IHx. intros k.
    unfold Logger.setup_logger, Logger.update. rewrite (H name).
    destruct (Logger.handlers (r' name)); [|apply H].
    destruct (String.eqb k name); [reflexivity|apply H]. }
  rewrite (E _ (Logger.setup_logger name first reg)).
  - apply IH.
  - intros m. apply setup_logger_twice.
Qed.

(** X24.  [setup_logger] touches one logger only, and only one that has no
    handler yet: that one gets the stream handler and the level asked for; a
    logger that already has a handler keeps its handlers and its level, and
    the loggers of other names are not changed. *)
Theorem setup_logger_frame :
  forall (name : string) (level : Z) (reg : Logger.registry),
    (Logger.handlers (reg name) = [] ->
     Logger.setup_logger name level reg name
     = Logger.mk_logger [Logger.stream_handler] level)
    /\ (Logger.handlers (reg name) <> [] ->
        Logger.setup_logger name level reg name = reg name)
    /\ (forall other,
          other <> name ->
          Logger.setup_logger name level reg other = reg other)
    /\ Logger.handlers (Logger.setup_logger name level reg name) <> [].
Proof.
  intros name level reg. rewrite setup_logger_at.
  split; [|split; [|split]].
  - now intros ->.
  - destruct (Logger.handlers (reg name)); [congruence|reflexivity].
  - intros other. apply setup_logger_elsewhere.
  - destruct (Logger.handlers (reg name)) eqn:E; simpl; [discriminate|].
    rewrite E. discriminate.
Qed.

Lemma setup_logger_frame_witness :
  Logger.setup_logger "llm_pipeline" Logger.INFO Logger.empty_registry
    "llm_pipeline"
  = Logger.mk_logger [Logger.stream_handler] Logger.INFO.
Proof.
  apply (proj1 (setup_logger_frame "llm_pipeline" Logger.INFO
                  Logger.empty_registry)).
  reflexivity.
Defined.

(* ================================================================== *)
(** ** The generation run *)

(** X25.  Whatever the indexer does, the run of [main] logs its start and
    ends its log either with the completion or with the exception it
    caught, never with both.  The index is written at most once, only with
    a list of listings that is not empty and with [create_table] set; when
    no listing was generated the index is not written and the warning is
    logged instead. *)
Theorem main_log_shape :
  forall (Listing : Type)
         (new_indexer : result (Pipeline.indexer Listing)),
    let log := Pipeline.main Listing new_indexer in
    hd_error log = Some (Pipeline.InfoStarting Listing)
    /\ (last log (Pipeline.InfoStarting Listing)
        = Pipeline.InfoCompleted Listing
        \/ exists e,
             last log (Pipeline.InfoStarting Listing)
             = Pipeline.LoggedException Listing e)
    /\ (In (Pipeline.InfoCompleted Listing) log ->
        forall e, ~ In (Pipeline.LoggedException Listing e) log)
    /\ (forall listings create_table,
          In (Pipeline.IndexAndSave Listing listings create_table) log ->
          listings <> [] /\ create_table = true
          /\ ~ In (Pipeline.WarningNoListings Listing) log
          /\ exists indexer,
               new_indexer = Ok indexer
               /\ Pipeline.run_generation_loop Listing indexer 50
                  = Ok listings)
    /\ (In (Pipeline.WarningNoListings Listing) log ->
        exists indexer,
          new_indexer = Ok indexer
          /\ Pipeline.run_generation_loop Listing indexer 50 = Ok []).
Proof.
  intros Listing new_indexer. unfold Pipeline.main.
  destruct new_indexer as [indexer|e]; simpl.
  2:{ repeat split; try (right; now eexists); intros;
        intuition (try discriminate). }
  destruct (Pipeline.run_generation_loop Listing indexer 50)
    as [[|l ls]|e] eqn:G; simpl.
  - repeat split; try (now left); intros;
      intuition (try discriminate); eauto.
  - destruct (Pipeline.index_and_save Listing indexer (l :: ls) true)
      as [[]|e] eqn:S; simpl.
    + split; [reflexivity|]. split; [now left|]. split.
      * intros _ e [H|[H|[H|[]]]]; discriminate.
      * split.
        -- intros listings ct [H|[H|[H|[]]]]; try discriminate.
           injection H as <- <-. repeat split; try discriminate.
           ++ intros [H|[H|[H|[]]]]; discriminate.
           ++ exists indexer. now split.
        -- intros [H|[H|[H|[]]]]; discriminate.
    + split; [reflexivity|]. split; [right; now eexists|]. split.
      * intros [H|[H|[H|[]]]]; discriminate.
      * split.
        -- intros listings ct [H|[H|[H|[]]]]; try discriminate.
           injection H as <- <-. repeat split; try discriminate.
           ++ intros [H|[H|[H|[]]]]; discriminate.
           ++ exists indexer. now split.
        -- intros [H|[H|[H|[]]]]; discriminate.
  - repeat split; try (right; now eexists); intros;
      intuition (try discriminate).
Qed.

Lemma main_log_shape_witness :
  exists indexer,
    Ok (Pipeline.mk_indexer nat (fun _ => Ok [1%nat]) (fun _ _ => Ok tt))
    = Ok indexer
    /\ Pipeline.run_generation_loop nat indexer 50 = Ok [1%nat].
Proof.
  apply (proj1 (proj2 (proj2 (proj2
           (main_log_shape nat
              (Ok (Pipeline.mk_indexer nat (fun _ => Ok [1%nat])
                     (fun _ _ => Ok tt)))))))
           [1%nat] true).
  simpl. right. now left.
Defined.

(* ================================================================== *)
(** ** The amenities line of a shown listing *)

Lemma all_strings_map_Some (l : list string) :
  Display.all_strings (map Some l) = Some l.
Proof.
  induction l as [|s l IH]; [reflexivity|].
  simpl. now rewrite IH.
Qed.

(** X26.  The amenities line of a listing: a missing field or an empty list
    gives no line; a list of strings is shown joined by comma and space; a
    string that is not JSON is shown as it is, the empty string included
    (an empty line is then shown rather than none); and a string that
    decodes to a list of strings is shown exactly as that list would be. *)
Theorem amenities_line_cases :
  forall (json_loads : string -> option Display.json),
    Display.amenities_line json_loads None = Ok None
    /\ (forall l,
          Display.amenities_line json_loads (Some (Lst l))
          = Ok (match l with [] => None | _ :: _ => Some (join ", " l) end))
    /\ (forall raw,
          json_loads raw = None ->
          Display.amenities_line json_loads (Some (Str raw))
          = Ok (Some raw))
    /\ (forall raw l,
          json_loads raw = Some (Display.JArr (map Some l)) ->
          Display.amenities_line json_loads (Some (Str raw))
          = Display.amenities_line json_loads (Some (Lst l))).
Proof.
  intros json_loads. split; [reflexivity|]. split; [|split].
  - intros [|s l]; [reflexivity|].
    unfold Display.amenities_line, Display.of_field, Display.join_json.
    rewrite all_strings_map_Some. reflexivity.
  - intros raw H. unfold Display.amenities_line. cbn [Display.of_field].
    rewrite H. cbn. unfold join. cbn [String.concat]. reflexivity.
  - intros raw l H. unfold Display.amenities_line. cbn [Display.of_field].
    now rewrite H.
Qed.

Lemma amenities_line_cases_witness :
  Display.amenities_line (fun _ => None) (Some (Str "pool, garden"))
  = Ok (Some "pool, garden").
Proof.
  apply (proj1 (proj2 (proj2 (amenities_line_cases (fun _ => None))))).
  reflexivity.
Defined.

(** X27.  Showing the amenities fails only for a text field that decodes,
    as JSON, to [true], to a number other than zero, or to an array holding
    something that is not a string; the failure is then a TypeError of the
    join.  A field that is missing or a list of strings never fails, nor
    does a text that is not JSON. *)
Theorem amenities_line_raises_iff :
  forall (json_loads : string -> option Display.json)
         (field : option pyseq) (e : exn),
    Display.amenities_line json_loads field = Raise e
    <-> e = TypeError
        /\ exists raw v,
             field = Some (Str raw)
             /\ json_loads raw = Some v
             /\ (v = Display.JBool true
                 \/ (exists n, v = Display.JNum n /\ num_truthy n = true)
                 \/ exists l,
                      v = Display.JArr l /\ Display.all_strings l = None).
Proof.
  intros json_loads field e. unfold Display.amenities_line. split.
  - destruct field as [[raw|l]|]; cbn [Display.of_field].
    + destruct (json_loads raw) as [v|] eqn:J.
      * intros H.
        assert (He : e = TypeError
                     /\ (v = Display.JBool true
                         \/ (exists n,
                               v = Display.JNum n /\ num_truthy n = true)
                         \/ exists l,
                              v = Display.JArr l
                              /\ Display.all_strings l = None)).
        { destruct v as [|[]|n|s|l|keys]; cbn in H; try discriminate.
          - injection H as <-. split; [reflexivity|now left].
          - destruct (num_truthy n) eqn:T; [|discriminate].
            injection H as <-. split; [reflexivity|].
            right. left. now exists n.
          - destruct (str_truthy s); discriminate.
          - destruct l as [|x l]; [discriminate|].
            cbn [Display.json_truthy Display.join_json] in H.
            destruct (Display.all_strings (x :: l)) eqn:A; [discriminate|].
            injection H as <-. split; [reflexivity|].
            right. right. now exists (x :: l).
          - destruct keys; discriminate. }
        destruct He as [-> Hv]. split; [reflexivity|].
        exists raw, v. now repeat split.
      * cbn. discriminate.
    + cbn [Display.json_truthy Display.join_json].
      rewrite all_strings_map_Some. destruct l; discriminate.
    + cbn. discriminate.
  - intros (-> & raw & v & -> & J & Hv). cbn [Display.of_field]. rewrite J.
    destruct Hv as [->|[(n & -> & T)|(l & -> & A)]].
    + reflexivity.
    + cbn. now rewrite T.
    + destruct l as [|x l]; [discriminate|].
      cbn [Display.json_truthy Display.join_json]. now rewrite A.
Qed.
